(** * Committee node of the oasis-core worker (go/worker/common/committee)
    and the simple transaction scheduler facade (go/runtime/scheduling/simple).

    Shallow embedding of [handleNewBlockLocked], [handleEpochTransitionLocked],
    [handleSuspendLocked], the [worker] event loop with its startup sequence
    and deferred releases, [Stop] with its [sync.Once], and [QueueTx].

    Observable actions (calls into the committee group, hook callbacks,
    the transaction pool, channel closes, metric increments that mark a
    step) are recorded in a trace of [Effect]s; the protected state guarded
    by [CrossNode] is an explicit record threaded through the code. *)

From Stdlib Require Import List ZArith String Bool Lia.
Import ListNotations.
Open Scope Z_scope.

(** ** Data model *)

(** [block.HeaderType] (a [uint8] in Go); values other than the four
    handled by the dispatch are kept as [HTOther]. *)
Inductive HeaderType :=
| Normal
| RoundFailed
| EpochTransition
| Suspended
| HTOther (v : N).

Definition HeaderType_eqb (a b : HeaderType) : bool :=
  match a, b with
  | Normal, Normal | RoundFailed, RoundFailed
  | EpochTransition, EpochTransition | Suspended, Suspended => true
  | HTOther x, HTOther y => N.eqb x y
  | _, _ => false
  end.

Record Header := mkHeader { HeaderType_ : HeaderType; Round : Z }.

(** [*block.Block]; the payload is not inspected by the committee node. *)
Record Block := mkBlock { Header_ : Header }.

(** [*consensus.LightBlock], identified by its height. *)
Record LightBlock := mkLightBlock { LB_Height : Z }.

(** [*registry.Runtime]: only the key-manager requirement is read here. *)
Record Runtime := mkRuntime { RT_ID : nat; RT_Version : nat; KeyManager : option nat }.

(** [beacon.EpochTime] is a [uint64]. *)
Definition EpochTime := N.

(** Errors returned by the consensus backend. [errors.Is(err,
    registry.ErrNoSuchRuntime)] is [ErrNoSuchRuntime]. *)
Inductive ConsensusErr :=
| ErrNoSuchRuntime
| ErrOther (code : nat).

(** the Go pair of a pointer result and an error: on success the pointer result is a value. *)
Inductive GoResult (T : Type) :=
| Ok (v : T)
| Err (e : ConsensusErr).
Arguments Ok {T} v.
Arguments Err {T} e.

(** The consensus backend as seen from the node: point lookups by height.
    [GetEpoch] returns a value together with its error, as the Go
    multi-value return that is assigned to [n.CurrentEpoch] directly. *)
Record Consensus := mkConsensus {
  GetLightBlock : Z -> GoResult LightBlock;
  GetRuntime : Z -> GoResult Runtime;
  GetEpoch : Z -> EpochTime * option ConsensusErr
}.

(** The fields of [Node] guarded by [CrossNode]. [None] is a nil pointer. *)
Record NodeState := mkNodeState {
  CurrentBlock : option Block;
  CurrentBlockHeight : Z;
  CurrentConsensusBlock : option LightBlock;
  CurrentDescriptor : option Runtime;
  CurrentEpoch : EpochTime;
  Height : Z
}.

(** [txpool.BlockInfo] handed to [TxPool.ProcessBlock]. *)
Record BlockInfo := mkBlockInfo {
  BI_RuntimeBlock : option Block;
  BI_ConsensusBlock : option LightBlock;
  BI_Epoch : EpochTime;
  BI_ActiveDescriptor : option Runtime
}.

(** Observable actions. Hooks are identified by their index in [n.hooks]. *)
Inductive Effect :=
| EProcessedBlock                      (* processedBlockCount.Inc() *)
| EProcessedEvent                      (* processedEventCount.Inc() *)
| EEpochTransition (height : Z)        (* epochTransitionCount.Inc(); Group.EpochTransition *)
| ESuspend (height : Z)                (* Group.Suspend *)
| ERoundTransition                     (* Group.RoundTransition *)
| EFailedRound                         (* failedRoundCount.Inc() *)
| EHookEpochTransition (i : nat)       (* hooks[i].HandleEpochTransitionLocked *)
| EHookNewBlockEarly (i : nat)         (* hooks[i].HandleNewBlockEarlyLocked *)
| EHookNewBlock (i : nat)              (* hooks[i].HandleNewBlockLocked *)
| EHookNewEvent (i : nat)              (* hooks[i].HandleNewEventLocked *)
| EHookRuntimeHostEvent (i : nat)      (* hooks[i].HandleRuntimeHostEvent *)
| EHookInitialized (i : nat)           (* <-hooks[i].Initialized() received *)
| EPoolProcessBlock (info : BlockInfo) (* TxPool.ProcessBlock *)
| ECloseInit                           (* close(n.initCh) *)
| ECloseStop                           (* close(n.stopCh) *)
| EPoolStop                            (* TxPool.Stop() *)
| ECloseQuit                           (* close(n.quitCh) *)
| ECancelCtx                           (* n.cancelCtx() *)
| ECloseConsensusBlocksSub | ECloseBlocksSub | ECloseEventsSub | ECloseHrtSub
| EHrtStart | EHrtStop | ENotifierStart | ENotifierStop.

(** [for _, hooks := range n.hooks { f(hooks) }] *)
Definition for_hooks (nhooks : nat) (f : nat -> Effect) : list Effect :=
  map f (seq 0 nhooks).

(** ** Per-block handling *)

Section Handler.

Variable C : Consensus.
Variable nhooks : nat.

(** [handleEpochTransitionLocked] *)
Definition handleEpochTransitionLocked (height : Z) : list Effect :=
  EEpochTransition height :: for_hooks nhooks EHookEpochTransition.

(** [handleSuspendLocked] *)
Definition handleSuspendLocked (height : Z) : list Effect :=
  ESuspend height :: for_hooks nhooks EHookEpochTransition.

(** Record updates of the protected state. *)
Definition set_descriptor (s : NodeState) (d : option Runtime) : NodeState :=
  {| CurrentBlock := CurrentBlock s; CurrentBlockHeight := CurrentBlockHeight s;
     CurrentConsensusBlock := CurrentConsensusBlock s; CurrentDescriptor := d;
     CurrentEpoch := CurrentEpoch s; Height := Height s |}.

Definition set_epoch (s : NodeState) (e : EpochTime) : NodeState :=
  {| CurrentBlock := CurrentBlock s; CurrentBlockHeight := CurrentBlockHeight s;
     CurrentConsensusBlock := CurrentConsensusBlock s;
     CurrentDescriptor := CurrentDescriptor s; CurrentEpoch := e; Height := Height s |}.

Definition set_height (s : NodeState) (h : Z) : NodeState :=
  {| CurrentBlock := CurrentBlock s; CurrentBlockHeight := CurrentBlockHeight s;
     CurrentConsensusBlock := CurrentConsensusBlock s;
     CurrentDescriptor := CurrentDescriptor s; CurrentEpoch := CurrentEpoch s; Height := h |}.

(** Lines 268-271: the current block, its height and the light block. *)
Definition set_block (s : NodeState) (blk : Block) (height : Z) (cb : LightBlock)
  : NodeState :=
  {| CurrentBlock := Some blk; CurrentBlockHeight := height;
     CurrentConsensusBlock := Some cb; CurrentDescriptor := CurrentDescriptor s;
     CurrentEpoch := CurrentEpoch s; Height := Height s |}.

(** The refresh of the active descriptor and of the epoch done on the first
    block and on epoch transitions (lines 274-298). The boolean is [false]
    when the code returns early; the assignments made before that [return]
    are kept, including [n.CurrentEpoch, err = GetEpoch(...)], which stores
    the returned epoch before [err] is tested. *)
Definition refreshDescriptorEpoch (s : NodeState) (height : Z) : NodeState * bool :=
  match GetRuntime C height with
  | Err (ErrOther _) => (s, false)
  | r =>
      let s1 := match r with
                | Ok ad => set_descriptor s (Some ad)
                | Err _ => s   (* ErrNoSuchRuntime: keep the current descriptor *)
                end in
      let '(ep, err) := GetEpoch C height in
      let s2 := set_epoch s1 ep in
      match err with
      | None => (s2, true)
      | Some _ => (s2, false)
      end
  end.

(** [handleNewBlockLocked blk height], returning the new protected state and
    the actions taken, in order. *)
Definition handleNewBlockLocked (s : NodeState) (blk : Block) (height : Z)
  : NodeState * list Effect :=
  let header := Header_ blk in
  let firstBlockReceived :=
    match CurrentBlock s with None => true | Some _ => false end in
  match GetLightBlock C height with
  | Err _ => (s, [EProcessedBlock])
  | Ok consensusBlk =>
      let s1 := set_block s blk height consensusBlk in
      let '(s2, ok) :=
        if firstBlockReceived || HeaderType_eqb (HeaderType_ header) EpochTransition
        then refreshDescriptorEpoch s1 height
        else (s1, true) in
      if negb ok then (s2, [EProcessedBlock]) else
      let early := for_hooks nhooks EHookNewBlockEarly in
      let dispatch :=
        match HeaderType_ header with
        | Normal =>
            if firstBlockReceived then Some (handleEpochTransitionLocked height)
            else Some [ERoundTransition]
        | RoundFailed =>
            if firstBlockReceived then Some (handleEpochTransitionLocked height)
            else Some [ERoundTransition; EFailedRound]
        | EpochTransition => Some (handleEpochTransitionLocked height)
        | Suspended => Some (handleSuspendLocked height)
        | HTOther _ => None
        end in
      match dispatch with
      | None => (s2, EProcessedBlock :: early)
      | Some d =>
          let info := {| BI_RuntimeBlock := CurrentBlock s2;
                         BI_ConsensusBlock := CurrentConsensusBlock s2;
                         BI_Epoch := CurrentEpoch s2;
                         BI_ActiveDescriptor := CurrentDescriptor s2 |} in
          (s2, EProcessedBlock :: early ++ d ++ [EPoolProcessBlock info]
                 ++ for_hooks nhooks EHookNewBlock)
      end
  end.

End Handler.

(** ** The worker *)

(** What the [select] of the main loop receives. *)
Inductive LoopEvent :=
| EvStop                                   (* <-n.stopCh *)
| EvConsensusBlock (h : option Z)          (* <-consensusBlocks; [None] is a nil block *)
| EvRuntimeBlock (blk : Block) (height : Z) (* <-blocks, an annotated block *)
| EvRoothashEvent                          (* <-events *)
| EvHostEvent.                             (* <-hrtEventCh *)

(** What the [select] waiting for a child worker receives. *)
Inductive InitWake :=
| WakeHookInitialized   (* <-hooks.Initialized() *)
| WakeStop.             (* <-n.stopCh *)

Inductive WaitOutcome :=
| WaitDone (rest : list InitWake)
| WaitStopped
| WaitBlocked.

(** Lines 516-523: wait for hooks [i], [i+1], ..., [i+k-1] in turn. *)
Fixpoint waitHooks (i k : nat) (wakes : list InitWake) : list Effect * WaitOutcome :=
  match k with
  | O => ([], WaitDone wakes)
  | S k' =>
      match wakes with
      | [] => ([], WaitBlocked)
      | WakeStop :: _ => ([], WaitStopped)
      | WakeHookInitialized :: w' =>
          let '(tr, o) := waitHooks (S i) k' w' in (EHookInitialized i :: tr, o)
      end
  end.

(** The loop either returns or is still blocked in a [select] once the
    supplied events are exhausted. *)
Inductive LoopResult :=
| LoopReturned (s : NodeState) (tr : list Effect)
| LoopBlocked (s : NodeState) (tr : list Effect).

Definition prepend (tr : list Effect) (r : LoopResult) : LoopResult :=
  match r with
  | LoopReturned s t => LoopReturned s (tr ++ t)
  | LoopBlocked s t => LoopBlocked s (tr ++ t)
  end.

Definition result_trace (r : LoopResult) : list Effect :=
  match r with LoopReturned _ t | LoopBlocked _ t => t end.

Definition result_state (r : LoopResult) : NodeState :=
  match r with LoopReturned s _ | LoopBlocked s _ => s end.

Section Worker.

Variable C : Consensus.
Variable nhooks : nat.

(** Lines 490-544: the [for { select { ... } }] loop with its [initialized]
    flag. *)
Fixpoint eventLoop (evs : list LoopEvent) (wakes : list InitWake)
    (initialized : bool) (s : NodeState) : LoopResult :=
  match evs with
  | [] => LoopBlocked s []
  | EvStop :: _ => LoopReturned s []
  | EvConsensusBlock None :: _ => LoopReturned s []
  | EvConsensusBlock (Some h) :: evs' => eventLoop evs' wakes initialized (set_height s h)
  | EvRuntimeBlock blk h :: evs' =>
      if initialized then
        let '(s', tr) := handleNewBlockLocked C nhooks s blk h in
        prepend tr (eventLoop evs' wakes true s')
      else
        let '(tw, o) := waitHooks 0 nhooks wakes in
        match o with
        | WaitDone w' =>
            let '(s', tr) := handleNewBlockLocked C nhooks s blk h in
            prepend (ECloseInit :: tw ++ tr) (eventLoop evs' w' true s')
        | WaitStopped => LoopReturned s (ECloseInit :: tw)
        | WaitBlocked => LoopBlocked s (ECloseInit :: tw)
        end
  | EvRoothashEvent :: evs' =>
      prepend (EProcessedEvent :: for_hooks nhooks EHookNewEvent)
              (eventLoop evs' wakes initialized s)
  | EvHostEvent :: evs' =>
      prepend (for_hooks nhooks EHookRuntimeHostEvent)
              (eventLoop evs' wakes initialized s)
  end.

(** Outcomes of the startup steps of [worker] (lines 377-488). *)
Record Startup := mkStartup {
  SU_SyncedBeforeStop : bool;          (* Synced() wins the select over stopCh *)
  SU_ActiveDescriptor : GoResult Runtime;
  SU_KeyManagerClientOk : bool;        (* keymanagerClient.New *)
  SU_KeyManagerReady : bool;           (* Initialized() wins over ctx.Done() *)
  SU_WatchConsensusBlocksOk : bool;
  SU_WatchBlocksOk : bool;
  SU_WatchEventsOk : bool;
  SU_ProvisionOk : bool;
  SU_HrtWatchEventsOk : bool;
  SU_HrtStartOk : bool;
  SU_NotifierStartOk : bool
}.

(** [worker]: the final protected state, the trace, and whether the
    function has returned. [defers] is the stack of deferred calls, most
    recent first; a [return] runs it. *)
Definition worker (su : Startup) (evs : list LoopEvent) (wakes : list InitWake)
    (s0 : NodeState) : NodeState * list Effect * bool :=
  let ret s tr defers := (s, tr ++ defers, true) in
  let d0 := [ECancelCtx; ECloseQuit] in
  if negb (SU_SyncedBeforeStop su) then ret s0 [] d0 else
  match SU_ActiveDescriptor su with
  | Err _ => ret s0 [] d0
  | Ok rt =>
      let s1 := set_descriptor s0 (Some rt) in
      let km_ok :=
        match KeyManager rt with
        | Some _ => SU_KeyManagerClientOk su && SU_KeyManagerReady su
        | None => true
        end in
      if negb km_ok then ret s1 [] d0 else
      if negb (SU_WatchConsensusBlocksOk su) then ret s1 [] d0 else
      let d1 := ECloseConsensusBlocksSub :: d0 in
      if negb (SU_WatchBlocksOk su) then ret s1 [] d1 else
      let d2 := ECloseBlocksSub :: d1 in
      if negb (SU_WatchEventsOk su) then ret s1 [] d2 else
      let d3 := ECloseEventsSub :: d2 in
      if negb (SU_ProvisionOk su) then ret s1 [] d3 else
      if negb (SU_HrtWatchEventsOk su) then ret s1 [] d3 else
      let d4 := ECloseHrtSub :: d3 in
      if negb (SU_HrtStartOk su) then ret s1 [EHrtStart] d4 else
      let d5 := EHrtStop :: d4 in
      if negb (SU_NotifierStartOk su) then ret s1 [EHrtStart; ENotifierStart] d5 else
      let d6 := ENotifierStop :: d5 in
      match eventLoop evs wakes false s1 with
      | LoopReturned s tr => ret s ([EHrtStart; ENotifierStart] ++ tr) d6
      | LoopBlocked s tr => (s, [EHrtStart; ENotifierStart] ++ tr, false)
      end
  end.

End Worker.

(** ** Stop *)

(** [Stop]: [n.stopOnce.Do(...)]; the boolean is the state of the
    [sync.Once] (whether its function has run). *)
Definition Stop (once_done : bool) : bool * list Effect :=
  if once_done then (true, [])
  else (true, [ECloseStop; EPoolStop]).

(** [k] calls of [Stop], one after the other (the calls of [Once.Do] are
    serialised by the [sync.Once]). *)
Fixpoint stop_calls (k : nat) (once_done : bool) : bool * list Effect :=
  match k with
  | O => (once_done, [])
  | S k' =>
      let '(d1, tr1) := Stop once_done in
      let '(d2, tr2) := stop_calls k' d1 in
      (d2, tr1 ++ tr2)
  end.

(** Number of actions of a trace that satisfy [p]. *)
Definition countP (p : Effect -> bool) (tr : list Effect) : nat :=
  List.length (filter p tr).

Definition isCloseStop (e : Effect) : bool :=
  match e with ECloseStop => true | _ => false end.
Definition isPoolStop (e : Effect) : bool :=
  match e with EPoolStop => true | _ => false end.
Definition isCloseQuit (e : Effect) : bool :=
  match e with ECloseQuit => true | _ => false end.
Definition isEpochTransition (e : Effect) : bool :=
  match e with EEpochTransition _ => true | _ => false end.
Definition isRoundTransition (e : Effect) : bool :=
  match e with ERoundTransition => true | _ => false end.
Definition isSuspend (e : Effect) : bool :=
  match e with ESuspend _ => true | _ => false end.

(** The dispatch actions of a trace: epoch transitions, round transitions
    and suspends, in order. *)
Definition transitions (tr : list Effect) : list Effect :=
  filter (fun e => isEpochTransition e || isRoundTransition e || isSuspend e) tr.

(** ** Transaction pool and the simple scheduler *)

(** [transaction.Weight] is a string naming a weight dimension. *)
Definition Weight := string.

(** [*transaction.CheckedTransaction]: its hash and its declared weights. *)
Record CheckedTransaction := mkCheckedTransaction {
  TxHash : nat;
  TxWeights : list (Weight * nat)
}.

(** Errors of [txpool.TxPool.Add]. *)
Inductive TxPoolErr :=
| ErrCallAlreadyExists
| ErrFull
| ErrCallTooLarge
| ErrPoolOther (code : nat).

(** The [txpool.TxPool] interface, restricted to what [QueueTx] and the pool
    size need. *)
Class TxPool (P : Type) := {
  Add : P -> CheckedTransaction -> P * option TxPoolErr;
  Size : P -> nat
}.

(** [scheduler.QueueTx] (go/runtime/scheduling/simple): the pool's error is
    compared with [==] against [txpool.ErrCallAlreadyExists]. *)
Definition QueueTx {P : Type} `{TxPool P} (pool : P) (tx : CheckedTransaction)
  : P * option TxPoolErr :=
  let '(pool', err) := Add pool tx in
  match err with
  | None => (pool', None)
  | Some ErrCallAlreadyExists => (pool', None)   (* ignoring duplicate call *)
  | Some e => (pool', Some e)
  end.

(** [txpool.Config] *)
Record PoolConfig := mkPoolConfig {
  MaxPoolSize : nat;
  WeightLimits : list (Weight * nat)
}.

Record PriorityQueue := mkPriorityQueue {
  PQ_Config : PoolConfig;
  PQ_Txs : list CheckedTransaction
}.

Fixpoint weight_lookup (w : Weight) (m : list (Weight * nat)) : option nat :=
  match m with
  | [] => None
  | (w', v) :: m' => if String.eqb w w' then Some v else weight_lookup w m'
  end.

(** Modelled from the spec: [Add] of the priority-queue pool
    (go/runtime/scheduling/simple/txpool/priorityqueue, not among the
    sources), after section 4.2: a duplicate identifier fails with the
    duplicate condition, admitting beyond [MaxPoolSize] or beyond a
    configured weight limit fails with a capacity condition, and otherwise
    the transaction is queued. The priority order of the queue is not
    modelled (transactions are kept in arrival order). *)
Definition pq_add (q : PriorityQueue) (tx : CheckedTransaction)
  : PriorityQueue * option TxPoolErr :=
  if existsb (fun t => Nat.eqb (TxHash t) (TxHash tx)) (PQ_Txs q)
  then (q, Some ErrCallAlreadyExists)
  else if Nat.leb (MaxPoolSize (PQ_Config q)) (List.length (PQ_Txs q))
  then (q, Some ErrFull)
  else if existsb (fun '(w, v) =>
                     match weight_lookup w (WeightLimits (PQ_Config q)) with
                     | Some l => Nat.ltb l v
                     | None => false
                     end) (TxWeights tx)
  then (q, Some ErrCallTooLarge)
  else ({| PQ_Config := PQ_Config q; PQ_Txs := PQ_Txs q ++ [tx] |}, None).

#[export] Instance PriorityQueue_TxPool : TxPool PriorityQueue := {
  Add := pq_add;
  Size := fun q => List.length (PQ_Txs q)
}.

(** ** GetStatus *)

(** [*EpochSnapshot] as read by [GetStatus]: the executor committee's
    roles ([None] for a nil committee) and [IsTransactionScheduler]. *)
Record EpochSnapshot := mkEpochSnapshot {
  ExecutorCommitteeRoles : option (list nat);
  IsTransactionSchedulerAt : Z -> bool
}.

(** [api.Status], the fields [GetStatus] fills. *)
Record Status := mkStatus {
  LatestRound : Z;
  LatestHeight : Z;
  ExecutorRoles : list nat;
  IsTransactionScheduler : bool;
  Peers : list nat
}.

(** [GetStatus] (lines 185-204): reads the protected state, the group's
    epoch snapshot and the peer list; it returns no error. *)
Definition GetStatus (s : NodeState) (epoch : EpochSnapshot) (peers : list nat) : Status :=
  let '(round, height) :=
    match CurrentBlock s with
    | Some b => (Round (Header_ b), CurrentBlockHeight s)
    | None => (0%Z, 0%Z)
    end in
  {| LatestRound := round;
     LatestHeight := height;
     ExecutorRoles := match ExecutorCommitteeRoles epoch with Some r => r | None => [] end;
     IsTransactionScheduler := IsTransactionSchedulerAt epoch round;
     Peers := peers |}.

(** ** The simple scheduler (go/runtime/scheduling/simple) *)

Module Simple.

Inductive SchedulerErr :=
| ErrInvalidTxPool (txPoolImpl : string).   (* "invalid transaction pool: %s" *)

Inductive NewResult (S : Type) :=
| NewOk (s : S)
| NewErr (e : SchedulerErr).
Arguments NewOk {S} s.
Arguments NewErr {S} e.

Section Scheduler.

(** The pool implementation behind [txpool.TxPool], its constructor
    [priorityqueue.New], its [UpdateConfig] method and [priorityqueue.Name];
    none of them is among the sources. *)
Variable Pool : Type.
Variable priorityqueue_New : PoolConfig -> Pool.
Variable UpdateConfig : Pool -> PoolConfig -> Pool.
Variable priorityqueue_Name : string.

Record scheduler := mkScheduler {
  txPool : Pool;
  maxTxPoolSize : nat
}.

(** [New] (lines 84-104). *)
Definition New (txPoolImpl : string) (maxTxPoolSize : nat) (weightLimits : list (Weight * nat))
  : NewResult scheduler :=
  let poolCfg := mkPoolConfig maxTxPoolSize weightLimits in
  if String.eqb txPoolImpl priorityqueue_Name
  then NewOk {| txPool := priorityqueue_New poolCfg; maxTxPoolSize := maxTxPoolSize |}
  else NewErr (ErrInvalidTxPool txPoolImpl).

(** [UpdateParameters] (lines 72-77). *)
Definition UpdateParameters (s : scheduler) (weightLimits : list (Weight * nat)) : scheduler :=
  {| txPool := UpdateConfig (txPool s)
                 {| MaxPoolSize := maxTxPoolSize s; WeightLimits := weightLimits |};
     maxTxPoolSize := maxTxPoolSize s |}.

(** A sequence of [UpdateParameters] calls. *)
Definition update_all (s : scheduler) (ws : list (list (Weight * nat))) : scheduler :=
  fold_left UpdateParameters ws s.

End Scheduler.

Arguments New {Pool} priorityqueue_New priorityqueue_Name txPoolImpl maxTxPoolSize weightLimits.
Arguments UpdateParameters {Pool} UpdateConfig s weightLimits.
Arguments update_all {Pool} UpdateConfig s ws.
Arguments txPool {Pool} s.
Arguments maxTxPoolSize {Pool} s.

End Simple.

(** ** Conversion between libp2p keys and signature keys (go/worker/common/p2p) *)

Module P2PKeys.

(** [libp2pCryptoPb.KeyType]. *)
Inductive KeyType := RSA | Ed25519 | Secp256k1 | ECDSA.

Definition KeyType_eqb (a b : KeyType) : bool :=
  match a, b with
  | RSA, RSA | Ed25519, Ed25519 | Secp256k1, Secp256k1 | ECDSA, ECDSA => true
  | _, _ => false
  end.

Inductive CryptoErr :=
| ErrCryptoNotSupported          (* errCryptoNotSupported *)
| ErrCryptoOther (n : nat).

Section Keys.

(** [signature.PublicKey], its slice [inner[:]], its zero value, and its
    [UnmarshalBinary] method, which updates the receiver (none of them is
    among the sources); [signature.Signer] and its [Public] method. *)
Variable PublicKey : Type.
Variable pk_bytes : PublicKey -> list Byte.byte.
Variable pk_zero : PublicKey.
Variable UnmarshalBinary : PublicKey -> list Byte.byte -> PublicKey * option CryptoErr.
Variable Signer : Type.
Variable Public : Signer -> PublicKey.

(** A [libp2pCrypto.PubKey]: the [*libp2pPublicKey] of this package, or any
    other implementation, given by its type and the results of [Raw]. *)
Inductive PubKey :=
| Libp2pPublicKey (inner : PublicKey)
| OtherPubKey (id : nat) (ty : KeyType) (raw : list Byte.byte) (raw_err : option CryptoErr).

Definition PubKey_Type (k : PubKey) : KeyType :=
  match k with
  | Libp2pPublicKey _ => Ed25519
  | OtherPubKey _ ty _ _ => ty
  end.

(** [Raw]: [k.inner[:], nil] for this package's keys. *)
Definition PubKey_Raw (k : PubKey) : list Byte.byte * option CryptoErr :=
  match k with
  | Libp2pPublicKey inner => (pk_bytes inner, None)
  | OtherPubKey _ _ raw err => (raw, err)
  end.

(** [PubKeyToPublicKey] (lines 61-77). *)
Definition PubKeyToPublicKey (pubKey : PubKey) : PublicKey * option CryptoErr :=
  let pk := pk_zero in
  if negb (KeyType_eqb (PubKey_Type pubKey) Ed25519) then (pk, Some ErrCryptoNotSupported) else
  let '(raw, err) := PubKey_Raw pubKey in
  match err with
  | Some e => (pk, Some e)
  | None =>
      let '(pk', err') := UnmarshalBinary pk raw in
      match err' with
      | Some e => (pk', Some e)
      | None => (pk', None)
      end
  end.

(** [PublicKeyToPubKey] (lines 80-84). *)
Definition PublicKeyToPubKey (pk : PublicKey) : PubKey * option CryptoErr :=
  (Libp2pPublicKey pk, None).

(** [unmarshalPublicKey] (lines 115-124); [None] is a nil key. *)
Definition unmarshalPublicKey (data : list Byte.byte) : option PubKey * option CryptoErr :=
  let '(inner, err) := UnmarshalBinary pk_zero data in
  match err with
  | Some e => (None, Some e)
  | None => (Some (Libp2pPublicKey inner), None)
  end.

Record p2pSigner := mkP2PSigner { signer : Signer }.

Definition WrapSigner (s : Signer) : p2pSigner := {| signer := s |}.

(** [GetPublic] (lines 44-51); [None] is the [panic]. *)
Definition GetPublic (s : p2pSigner) : option PubKey :=
  let '(pubKey, err) := PublicKeyToPubKey (Public (signer s)) in
  match err with
  | Some _ => None
  | None => Some pubKey
  end.

(** [p2pSigner.Raw] and [p2pSigner.Bytes] (lines 24-34). *)
Definition p2pSigner_Raw (s : p2pSigner) : list Byte.byte * option CryptoErr :=
  ([], Some ErrCryptoNotSupported).

End Keys.

Arguments Libp2pPublicKey {PublicKey} inner.
Arguments OtherPubKey {PublicKey} id ty raw raw_err.
Arguments PubKey_Raw {PublicKey} pk_bytes k.
Arguments PubKeyToPublicKey {PublicKey} pk_bytes pk_zero UnmarshalBinary pubKey.
Arguments PublicKeyToPubKey {PublicKey} pk.
Arguments unmarshalPublicKey {PublicKey} pk_zero UnmarshalBinary data.
Arguments WrapSigner {Signer} s.
Arguments GetPublic {PublicKey Signer} Public s.

(** Signature keys as the byte arrays they are: a 32-byte array whose
    [UnmarshalBinary] accepts exactly 32 bytes. *)
Definition bytes32_zero : list Byte.byte := repeat Byte.x00 32%nat.
Definition bytes32_unmarshal (k data : list Byte.byte) : list Byte.byte * option CryptoErr :=
  if Nat.eqb (List.length data) 32%nat then (data, None) else (k, Some (ErrCryptoOther 0)).

End P2PKeys.

(** ** Epoch time backend selection (go/epochtime/init.go) *)

Module EpochtimeInit.

Definition cfgBackend : string := "epochtime.backend".
Definition cfgSystemInterval : string := "epochtime.system.interval".
Definition cfgTendermintInterval : string := "epochtime.tendermint.interval".

(** A pflag flag set: each flag has its default and, once set on the
    command line, its value. *)
Inductive FlagValue := FString (v : string) | FInt64 (v : Z).

Record Flag := mkFlag {
  FlagName : string;
  FlagDefault : FlagValue;
  FlagChanged : option FlagValue
}.

Definition FlagSet := list Flag.

Fixpoint Lookup (fs : FlagSet) (name : string) : option Flag :=
  match fs with
  | [] => None
  | f :: fs' => if String.eqb (FlagName f) name then Some f else Lookup fs' name
  end.

Definition flag_value (f : Flag) : FlagValue :=
  match FlagChanged f with Some v => v | None => FlagDefault f end.

Inductive FlagErr := ErrFlagNotDefined | ErrFlagType.

(** [Flags().GetString] and [Flags().GetInt64]: the zero value with an
    error when the flag is not defined or has another type. *)
Definition GetString (fs : FlagSet) (name : string) : string * option FlagErr :=
  match Lookup fs name with
  | None => (""%string, Some ErrFlagNotDefined)
  | Some f => match flag_value f with
              | FString v => (v, None)
              | _ => (""%string, Some ErrFlagType)
              end
  end.

Definition GetInt64 (fs : FlagSet) (name : string) : Z * option FlagErr :=
  match Lookup fs name with
  | None => (0%Z, Some ErrFlagNotDefined)
  | Some f => match flag_value f with
              | FInt64 v => (v, None)
              | _ => (0%Z, Some ErrFlagType)
              end
  end.

(** Setting a flag on the command line. *)
Fixpoint SetFlag (fs : FlagSet) (name : string) (v : FlagValue) : FlagSet :=
  match fs with
  | [] => []
  | f :: fs' =>
      if String.eqb (FlagName f) name
      then mkFlag (FlagName f) (FlagDefault f) (Some v) :: fs'
      else f :: SetFlag fs' name v
  end.

(** [strings.ToLower] on ASCII text (Go maps other runes with
    [unicode.ToLower]; the properties below do not depend on it). *)
Definition ascii_lower (c : Ascii.ascii) : Ascii.ascii :=
  let k := Ascii.nat_of_ascii c in
  if Nat.leb 65 k && Nat.leb k 90 then Ascii.ascii_of_nat (k + 32)%nat else c.

Fixpoint ToLower (s : string) : string :=
  match s with
  | EmptyString => EmptyString
  | String c s' => String (ascii_lower c) (ToLower s')
  end.

(** The backend [New] constructs, or its error. *)
Inductive NewResult :=
| SystemNew (interval : Z)          (* system.New(interval) *)
| MockNew                           (* mock.New() *)
| TendermintNew (interval : Z)      (* tendermint.New(tmService, interval) *)
| ErrUnsupportedBackend (backend : string).  (* "epochtime: unsupported backend: '%v'" *)

Section Init.

(** [system.BackendName], [mock.BackendName], [tendermint.BackendName] and
    [api.EpochInterval], which are not among the sources. *)
Variables system_BackendName mock_BackendName tendermint_BackendName : string.
Variable EpochInterval : Z.

(** [New] (lines 31-45); the errors of the flag getters are dropped. *)
Definition New (fs : FlagSet) : NewResult :=
  let '(backend, _) := GetString fs cfgBackend in
  let b := ToLower backend in
  if String.eqb b system_BackendName then
    let '(interval, _) := GetInt64 fs cfgSystemInterval in SystemNew interval
  else if String.eqb b mock_BackendName then MockNew
  else if String.eqb b tendermint_BackendName then
    let '(interval, _) := GetInt64 fs cfgTendermintInterval in TendermintNew interval
  else ErrUnsupportedBackend backend.

(** [RegisterFlags] (lines 49-61): defining a flag twice panics in pflag
    ([None]); the viper bindings are not read by [New]. *)
Definition RegisterFlags (fs : FlagSet) : option FlagSet :=
  if existsb (fun f => existsb (String.eqb (FlagName f))
                         [cfgBackend; cfgSystemInterval; cfgTendermintInterval]) fs
  then None
  else Some (fs ++ [mkFlag cfgBackend (FString system_BackendName) None;
                    mkFlag cfgSystemInterval (FInt64 EpochInterval) None;
                    mkFlag cfgTendermintInterval (FInt64 EpochInterval) None]).

End Init.

End EpochtimeInit.

(** ** Concrete inputs *)

Definition blk_of (ht : HeaderType) (r : Z) : Block := mkBlock (mkHeader ht r).

Definition rt0 : Runtime := mkRuntime 1 0 None.

(** A consensus backend on which every lookup succeeds. *)
Definition C_ok : Consensus :=
  mkConsensus (fun h => Ok (mkLightBlock h))
              (fun h => Ok (mkRuntime 1 (Z.to_nat h) None))
              (fun h => (Z.to_N h, None)).

(** The state of a node right after startup with descriptor [rt0]. *)
Definition s_start : NodeState := mkNodeState None 0 None (Some rt0) 0%N 0.

Example handle_first_normal :
  snd (handleNewBlockLocked C_ok 1 s_start (blk_of Normal 7) 5)
  = [EProcessedBlock; EHookNewBlockEarly 0; EEpochTransition 5; EHookEpochTransition 0;
     EPoolProcessBlock (mkBlockInfo (Some (blk_of Normal 7)) (Some (mkLightBlock 5)) 5%N
                                    (Some (mkRuntime 1 5 None)));
     EHookNewBlock 0].
Proof. reflexivity. Qed.

Example loop_first_block :
  result_trace (eventLoop C_ok 1 [EvRuntimeBlock (blk_of Suspended 1) 2] [WakeHookInitialized]
                          false s_start)
  = [ECloseInit; EHookInitialized 0; EProcessedBlock; EHookNewBlockEarly 0; ESuspend 2;
     EHookEpochTransition 0;
     EPoolProcessBlock (mkBlockInfo (Some (blk_of Suspended 1)) (Some (mkLightBlock 2)) 2%N
                                    (Some (mkRuntime 1 2 None)));
     EHookNewBlock 0].
Proof. reflexivity. Qed.

(** ** Properties *)

Close Scope Z_scope.
Open Scope nat_scope.

(** Whether the handler refreshes the descriptor and the epoch. *)
Definition needs_refresh (s : NodeState) (blk : Block) : bool :=
  match CurrentBlock s with None => true | Some _ => false end
  || HeaderType_eqb (HeaderType_ (Header_ blk)) EpochTransition.

Lemma HeaderType_eqb_EpochTransition t :
  HeaderType_eqb t EpochTransition = true <-> t = EpochTransition.
Proof. destruct t; simpl; split; congruence. Qed.

(** The protected state left by the handler depends only on the light-block
    fetch and on the refresh, not on the dispatch. *)
Lemma handleNewBlockLocked_state C n s blk h :
  fst (handleNewBlockLocked C n s blk h)
  = match GetLightBlock C h with
    | Err _ => s
    | Ok cb =>
        fst (if needs_refresh s blk
             then refreshDescriptorEpoch C (set_block s blk h cb) h
             else (set_block s blk h cb, true))
    end.
Proof.
  unfold handleNewBlockLocked, needs_refresh.
  destruct (GetLightBlock C h) as [cb|e]; [|reflexivity].
  destruct (_ || _); [destruct (refreshDescriptorEpoch C _ h) as [s2 ok]|];
    simpl; try destruct ok; simpl; try reflexivity;
    destruct (HeaderType_ (Header_ blk)); try destruct (CurrentBlock s); reflexivity.
Qed.

(** When the handler goes on past the refresh, its trace is fixed by the
    header type and the first-block flag. *)
Lemma handleNewBlockLocked_trace_ok C n s blk h cb :
  GetLightBlock C h = Ok cb ->
  snd (if needs_refresh s blk
       then refreshDescriptorEpoch C (set_block s blk h cb) h
       else (set_block s blk h cb, true)) = true ->
  let s2 := fst (handleNewBlockLocked C n s blk h) in
  let first := match CurrentBlock s with None => true | Some _ => false end in
  let info := {| BI_RuntimeBlock := CurrentBlock s2;
                 BI_ConsensusBlock := CurrentConsensusBlock s2;
                 BI_Epoch := CurrentEpoch s2;
                 BI_ActiveDescriptor := CurrentDescriptor s2 |} in
  let finish d := EProcessedBlock :: for_hooks n EHookNewBlockEarly ++ d
                    ++ [EPoolProcessBlock info] ++ for_hooks n EHookNewBlock in
  snd (handleNewBlockLocked C n s blk h)
  = match HeaderType_ (Header_ blk) with
    | Normal => finish (if first then handleEpochTransitionLocked n h else [ERoundTransition])
    | RoundFailed =>
        finish (if first then handleEpochTransitionLocked n h
                else [ERoundTransition; EFailedRound])
    | EpochTransition => finish (handleEpochTransitionLocked n h)
    | Suspended => finish (handleSuspendLocked n h)
    | HTOther _ => EProcessedBlock :: for_hooks n EHookNewBlockEarly
    end.
Proof.
  intros Hlb Hok.
  unfold handleNewBlockLocked, needs_refresh in *. rewrite Hlb in *.
  destruct (_ || _); [destruct (refreshDescriptorEpoch C _ h) as [s2 ok]|];
    simpl in Hok; subst; simpl;
    destruct (HeaderType_ (Header_ blk)); try destruct (CurrentBlock s); reflexivity.
Qed.

(** When the handler stops at the refresh, it has only counted the block. *)
Lemma handleNewBlockLocked_trace_abort C n s blk h cb :
  GetLightBlock C h = Ok cb ->
  snd (if needs_refresh s blk
       then refreshDescriptorEpoch C (set_block s blk h cb) h
       else (set_block s blk h cb, true)) = false ->
  snd (handleNewBlockLocked C n s blk h) = [EProcessedBlock].
Proof.
  intros Hlb Hok.
  unfold handleNewBlockLocked, needs_refresh in *. rewrite Hlb in *.
  destruct (_ || _); [destruct (refreshDescriptorEpoch C _ h) as [s2 ok]|];
    simpl in Hok; subst; try discriminate; reflexivity.
Qed.

(** C4. For every incoming block, when the light-block fetch at its height
    fails, the handler returns with the protected state unchanged and no
    hook callback or pool update (only the processed-block metric is
    counted). *)
Theorem light_block_failure_discards C n s blk h e :
  GetLightBlock C h = Err e ->
  handleNewBlockLocked C n s blk h = (s, [EProcessedBlock]).
Proof. intros H. unfold handleNewBlockLocked. rewrite H. reflexivity. Qed.

Lemma light_block_failure_discards_witness :
  let C := mkConsensus (fun _ => Err (ErrOther 3)) (GetRuntime C_ok) (GetEpoch C_ok) in
  GetLightBlock C 5 = Err (ErrOther 3) /\
  handleNewBlockLocked C 2 s_start (blk_of Normal 1) 5 = (s_start, [EProcessedBlock]).
Proof.
  simpl. split; [reflexivity|].
  apply (light_block_failure_discards
           (mkConsensus (fun _ => Err (ErrOther 3)) (GetRuntime C_ok) (GetEpoch C_ok))
           2 s_start (blk_of Normal 1) 5 (ErrOther 3)).
  reflexivity.
Defined.

(** C9. For every block that is not the first one and whose header type is
    not EpochTransition, the handler leaves CurrentDescriptor and
    CurrentEpoch unchanged. *)
Theorem descriptor_epoch_unchanged_off_transition C n s blk h :
  CurrentBlock s <> None ->
  HeaderType_ (Header_ blk) <> EpochTransition ->
  CurrentDescriptor (fst (handleNewBlockLocked C n s blk h)) = CurrentDescriptor s /\
  CurrentEpoch (fst (handleNewBlockLocked C n s blk h)) = CurrentEpoch s.
Proof.
  intros Hfirst Het. rewrite handleNewBlockLocked_state.
  assert (Hn : needs_refresh s blk = false).
  { unfold needs_refresh. destruct (CurrentBlock s); [|congruence]. simpl.
    destruct (HeaderType_eqb _ _) eqn:E; [|reflexivity].
    apply HeaderType_eqb_EpochTransition in E. contradiction. }
  rewrite Hn. destruct (GetLightBlock C h); split; reflexivity.
Qed.

Lemma descriptor_epoch_unchanged_off_transition_witness :
  let s := mkNodeState (Some (blk_of Normal 1)) 4 (Some (mkLightBlock 4)) (Some rt0) 2%N 4 in
  (CurrentBlock s <> None /\ HeaderType_ (Header_ (blk_of RoundFailed 2)) <> EpochTransition) /\
  CurrentDescriptor (fst (handleNewBlockLocked C_ok 1 s (blk_of RoundFailed 2) 5))
    = CurrentDescriptor s /\
  CurrentEpoch (fst (handleNewBlockLocked C_ok 1 s (blk_of RoundFailed 2) 5)) = CurrentEpoch s.
Proof.
  simpl. split; [split; discriminate|].
  apply (descriptor_epoch_unchanged_off_transition C_ok 1
           (mkNodeState (Some (blk_of Normal 1)) 4 (Some (mkLightBlock 4)) (Some rt0) 2%N 4)
           (blk_of RoundFailed 2) 5); simpl; discriminate.
Defined.

(** Whether the refresh goes through: the descriptor lookup succeeds or
    reports "no such runtime", and the epoch lookup succeeds. *)
Definition refresh_ok (C : Consensus) (h : Z) : bool :=
  match GetRuntime C h with
  | Err (ErrOther _) => false
  | _ => match snd (GetEpoch C h) with None => true | Some _ => false end
  end.

Definition known_header (t : HeaderType) : bool :=
  match t with HTOther _ => false | _ => true end.

Lemma refreshDescriptorEpoch_ok C s h :
  snd (refreshDescriptorEpoch C s h) = refresh_ok C h.
Proof.
  unfold refreshDescriptorEpoch, refresh_ok.
  destruct (GetRuntime C h) as [d|[|c]]; try reflexivity;
    destruct (GetEpoch C h) as [ep [e|]]; reflexivity.
Qed.

Lemma countP_app p l1 l2 : countP p (l1 ++ l2) = countP p l1 + countP p l2.
Proof. unfold countP. rewrite filter_app, length_app. reflexivity. Qed.

Lemma countP_cons p x l : countP p (x :: l) = (if p x then 1 else 0) + countP p l.
Proof. unfold countP. simpl. destruct (p x); reflexivity. Qed.

Lemma countP_nil p : countP p [] = 0.
Proof. reflexivity. Qed.

Lemma countP_for_hooks p n f :
  (forall i, p (f i) = false) -> countP p (for_hooks n f) = 0.
Proof.
  intros Hf. unfold countP, for_hooks.
  assert (G : forall k, List.length (filter p (map f (seq k n))) = 0).
  { induction n as [|n IH]; intros k; simpl; [reflexivity|].
    rewrite Hf. apply IH. }
  apply G.
Qed.

Ltac count_simpl :=
  repeat (rewrite ?countP_app, ?countP_cons, ?countP_nil, ?countP_for_hooks
            by (intros; reflexivity); simpl).

(** C5. In a handler run that refreshes the descriptor (first block or
    EpochTransition header) after a successful light-block fetch: a
    "no such runtime" lookup keeps CurrentDescriptor, the epoch is still
    refreshed, and, when the epoch lookup succeeds, processing goes on to
    the early hooks and (for a handled header type) to the pool update with
    the retained descriptor; any other lookup failure stops the handler
    right after committing the block. *)
Theorem descriptor_refresh_no_such_runtime C n s blk h cb :
  GetLightBlock C h = Ok cb ->
  needs_refresh s blk = true ->
  (GetRuntime C h = Err ErrNoSuchRuntime ->
     CurrentDescriptor (fst (handleNewBlockLocked C n s blk h)) = CurrentDescriptor s /\
     CurrentEpoch (fst (handleNewBlockLocked C n s blk h)) = fst (GetEpoch C h) /\
     (snd (GetEpoch C h) = None ->
        (exists rest, snd (handleNewBlockLocked C n s blk h)
                      = EProcessedBlock :: for_hooks n EHookNewBlockEarly ++ rest) /\
        (known_header (HeaderType_ (Header_ blk)) = true ->
         exists info, In (EPoolProcessBlock info) (snd (handleNewBlockLocked C n s blk h)) /\
                      BI_ActiveDescriptor info = CurrentDescriptor s /\
                      BI_Epoch info = fst (GetEpoch C h)))) /\
  (forall c, GetRuntime C h = Err (ErrOther c) ->
     handleNewBlockLocked C n s blk h = (set_block s blk h cb, [EProcessedBlock])).
Proof.
  intros Hlb Hn. split.
  - intros Hrt.
    assert (Hst : fst (handleNewBlockLocked C n s blk h)
                  = set_epoch (set_block s blk h cb) (fst (GetEpoch C h))).
    { rewrite handleNewBlockLocked_state, Hlb, Hn.
      unfold refreshDescriptorEpoch. rewrite Hrt.
      destruct (GetEpoch C h) as [ep e]. destruct e; reflexivity. }
    rewrite Hst. split; [reflexivity|]. split; [reflexivity|].
    intros Hep.
    assert (Hok : snd (if needs_refresh s blk
                       then refreshDescriptorEpoch C (set_block s blk h cb) h
                       else (set_block s blk h cb, true)) = true).
    { rewrite Hn, refreshDescriptorEpoch_ok. unfold refresh_ok. rewrite Hrt, Hep.
      reflexivity. }
    pose proof (handleNewBlockLocked_trace_ok C n s blk h cb Hlb Hok) as Htr.
    cbv zeta in Htr. rewrite Hst in Htr. rewrite Htr.
    destruct (HeaderType_ (Header_ blk)); simpl;
      (split; [first [eexists; reflexivity | exists []; rewrite app_nil_r; reflexivity]|]);
      intros Hk; try discriminate;
      (exists {| BI_RuntimeBlock := Some blk; BI_ConsensusBlock := Some cb;
                 BI_Epoch := fst (GetEpoch C h); BI_ActiveDescriptor := CurrentDescriptor s |};
       split; [|split; reflexivity];
       right; rewrite !in_app_iff; simpl; rewrite ?in_app_iff; simpl; intuition).
  - intros c Hrt. unfold handleNewBlockLocked. rewrite Hlb.
    unfold needs_refresh in Hn. rewrite Hn.
    unfold refreshDescriptorEpoch. rewrite Hrt. reflexivity.
Qed.

Lemma descriptor_refresh_no_such_runtime_witness :
  let C := mkConsensus (GetLightBlock C_ok) (fun _ => Err ErrNoSuchRuntime) (GetEpoch C_ok) in
  (GetLightBlock C 5 = Ok (mkLightBlock 5) /\ needs_refresh s_start (blk_of Normal 1) = true) /\
  CurrentDescriptor (fst (handleNewBlockLocked C 1 s_start (blk_of Normal 1) 5))
    = CurrentDescriptor s_start.
Proof.
  simpl. split; [split; reflexivity|].
  apply (descriptor_refresh_no_such_runtime
           (mkConsensus (GetLightBlock C_ok) (fun _ => Err ErrNoSuchRuntime) (GetEpoch C_ok))
           1 s_start (blk_of Normal 1) 5 (mkLightBlock 5)); reflexivity.
Defined.

(** C1 (amended). On the first block the handler never performs a round
    transition and performs at most one epoch transition or suspend. When
    the light-block fetch and the refresh go through, a Normal, RoundFailed
    or EpochTransition header gives exactly one epoch transition, a
    Suspended header gives exactly one suspend and no epoch transition, and
    any other header gives neither. *)
Theorem first_block_epoch_transition C n s blk h :
  CurrentBlock s = None ->
  countP isRoundTransition (snd (handleNewBlockLocked C n s blk h)) = 0 /\
  countP isEpochTransition (snd (handleNewBlockLocked C n s blk h))
    + countP isSuspend (snd (handleNewBlockLocked C n s blk h)) <= 1 /\
  ((exists cb, GetLightBlock C h = Ok cb) -> refresh_ok C h = true ->
   match HeaderType_ (Header_ blk) with
   | Normal | RoundFailed | EpochTransition =>
       countP isEpochTransition (snd (handleNewBlockLocked C n s blk h)) = 1 /\
       countP isSuspend (snd (handleNewBlockLocked C n s blk h)) = 0
   | Suspended =>
       countP isEpochTransition (snd (handleNewBlockLocked C n s blk h)) = 0 /\
       countP isSuspend (snd (handleNewBlockLocked C n s blk h)) = 1
   | HTOther _ =>
       countP isEpochTransition (snd (handleNewBlockLocked C n s blk h)) = 0 /\
       countP isSuspend (snd (handleNewBlockLocked C n s blk h)) = 0
   end)%nat.
Proof.
  intros Hnone.
  assert (Hn : needs_refresh s blk = true) by (unfold needs_refresh; rewrite Hnone; reflexivity).
  destruct (GetLightBlock C h) as [cb|e] eqn:Hlb.
  - destruct (refresh_ok C h) eqn:Hr.
    + assert (Hok : snd (if needs_refresh s blk
                         then refreshDescriptorEpoch C (set_block s blk h cb) h
                         else (set_block s blk h cb, true)) = true)
        by (rewrite Hn, refreshDescriptorEpoch_ok; exact Hr).
      pose proof (handleNewBlockLocked_trace_ok C n s blk h cb Hlb Hok) as Htr.
      cbv zeta in Htr. rewrite Htr. rewrite Hnone.
      unfold handleEpochTransitionLocked, handleSuspendLocked.
      destruct (HeaderType_ (Header_ blk)); count_simpl;
        (split; [lia | split; [lia | intros _ _; split; lia]]).
    + assert (Hab : snd (if needs_refresh s blk
                         then refreshDescriptorEpoch C (set_block s blk h cb) h
                         else (set_block s blk h cb, true)) = false)
        by (rewrite Hn, refreshDescriptorEpoch_ok; exact Hr).
      rewrite (handleNewBlockLocked_trace_abort C n s blk h cb Hlb Hab).
      count_simpl. split; [lia | split; [lia | intros _ H; congruence]].
  - unfold handleNewBlockLocked. rewrite Hlb. count_simpl.
    split; [lia | split; [lia | intros [cb H]; discriminate]].
Qed.

Lemma first_block_epoch_transition_witness :
  CurrentBlock s_start = None /\
  countP isEpochTransition (snd (handleNewBlockLocked C_ok 1 s_start (blk_of Normal 1) 5)) = 1%nat.
Proof.
  split; [reflexivity|].
  destruct (first_block_epoch_transition C_ok 1 s_start (blk_of Normal 1) 5 eq_refl)
    as [_ [_ H]].
  apply H; [eexists; reflexivity | reflexivity].
Defined.

(** C1 as stated fails: a first block with a Suspended header, on a backend
    where every lookup succeeds, is handled by a suspend and no epoch
    transition. *)
Lemma first_block_suspended_not_epoch_transition :
  ~ (forall C n s blk h, CurrentBlock s = None ->
       countP isEpochTransition (snd (handleNewBlockLocked C n s blk h)) = 1%nat /\
       countP isRoundTransition (snd (handleNewBlockLocked C n s blk h)) = 0%nat).
Proof.
  intros H. destruct (H C_ok 0 s_start (blk_of Suspended 1) 2%Z eq_refl) as [H1 _].
  vm_compute in H1. discriminate.
Qed.

Lemma handleNewBlockLocked_Height C n s blk h :
  Height (fst (handleNewBlockLocked C n s blk h)) = Height s.
Proof.
  rewrite handleNewBlockLocked_state.
  destruct (GetLightBlock C h) as [cb|e]; [|reflexivity].
  destruct (needs_refresh s blk); [|reflexivity].
  unfold refreshDescriptorEpoch.
  destruct (GetRuntime C h) as [d|[|c]]; try reflexivity;
    destruct (GetEpoch C h) as [ep [e|]]; reflexivity.
Qed.

(** C2 (amended). For a block whose header type is none of the four handled
    ones, the handler takes no transition, no pool update and no new-block
    callback, and the loop's Height is untouched. When the light-block
    fetch fails, it only counts the block. When the fetch succeeds, it
    commits CurrentBlock, CurrentBlockHeight and CurrentConsensusBlock
    first: on a block that is not the first one, the new state is the old
    one with exactly these three fields replaced and every early hook
    callback runs; on the first block, it also refreshes CurrentDescriptor
    and CurrentEpoch, and runs the early hook callbacks only if that
    refresh succeeds (otherwise it only counts the block). *)
Theorem unknown_header_dropped C n s blk h v :
  HeaderType_ (Header_ blk) = HTOther v ->
  (forall e, In e (snd (handleNewBlockLocked C n s blk h)) ->
     e = EProcessedBlock \/ exists i, e = EHookNewBlockEarly i) /\
  Height (fst (handleNewBlockLocked C n s blk h)) = Height s /\
  (forall cb, GetLightBlock C h = Ok cb -> CurrentBlock s <> None ->
     handleNewBlockLocked C n s blk h
     = (set_block s blk h cb, EProcessedBlock :: for_hooks n EHookNewBlockEarly)) /\
  (forall e, GetLightBlock C h = Err e ->
     handleNewBlockLocked C n s blk h = (s, [EProcessedBlock])) /\
  (forall cb, GetLightBlock C h = Ok cb -> CurrentBlock s = None ->
     handleNewBlockLocked C n s blk h
     = (fst (refreshDescriptorEpoch C (set_block s blk h cb) h),
        if snd (refreshDescriptorEpoch C (set_block s blk h cb) h)
        then EProcessedBlock :: for_hooks n EHookNewBlockEarly
        else [EProcessedBlock])).
Proof.
  intros Hht. split; [|split; [|split; [|split]]].
  - intros e Hin.
    destruct (GetLightBlock C h) as [cb|err] eqn:Hlb.
    + destruct (snd (if needs_refresh s blk
                     then refreshDescriptorEpoch C (set_block s blk h cb) h
                     else (set_block s blk h cb, true))) eqn:Hok.
      * pose proof (handleNewBlockLocked_trace_ok C n s blk h cb Hlb Hok) as Htr.
        cbv zeta in Htr. rewrite Hht in Htr. rewrite Htr in Hin.
        destruct Hin as [<-|Hin]; [left; reflexivity|right].
        unfold for_hooks in Hin. apply in_map_iff in Hin.
        destruct Hin as [i [<- _]]. exists i. reflexivity.
      * rewrite (handleNewBlockLocked_trace_abort C n s blk h cb Hlb Hok) in Hin.
        destruct Hin as [<-|[]]. left. reflexivity.
    + unfold handleNewBlockLocked in Hin. rewrite Hlb in Hin.
      destruct Hin as [<-|[]]. left. reflexivity.
  - apply handleNewBlockLocked_Height.
  - intros cb Hlb Hnf. unfold handleNewBlockLocked. rewrite Hlb, Hht.
    destruct (CurrentBlock s); [reflexivity|congruence].
  - intros e Hlb. unfold handleNewBlockLocked. rewrite Hlb. reflexivity.
  - intros cb Hlb Hf. unfold handleNewBlockLocked. rewrite Hlb, Hht, Hf. simpl.
    destruct (refreshDescriptorEpoch C (set_block s blk h cb) h) as [s2 [|]]; reflexivity.
Qed.

Lemma unknown_header_dropped_witness :
  let s := mkNodeState (Some (blk_of Normal 1)) 4 (Some (mkLightBlock 4)) (Some rt0) 2%N 4 in
  HeaderType_ (Header_ (blk_of (HTOther 9) 2)) = HTOther 9 /\
  Height (fst (handleNewBlockLocked C_ok 1 s (blk_of (HTOther 9) 2) 5)) = Height s.
Proof.
  simpl. split; [reflexivity|].
  apply (unknown_header_dropped C_ok 1
           (mkNodeState (Some (blk_of Normal 1)) 4 (Some (mkLightBlock 4)) (Some rt0) 2%N 4)
           (blk_of (HTOther 9) 2) 5 9%N eq_refl).
Defined.

(** C2 as stated fails: a non-first block with an unrecognised header type
    replaces CurrentBlock and runs the early hook callback. *)
Lemma unknown_header_changes_state :
  ~ (forall C n s blk h v, HeaderType_ (Header_ blk) = HTOther v ->
       fst (handleNewBlockLocked C n s blk h) = s /\
       (forall i, ~ In (EHookNewBlockEarly i) (snd (handleNewBlockLocked C n s blk h)))).
Proof.
  intros H.
  destruct (H C_ok 1 (mkNodeState (Some (blk_of Normal 1)) 4 (Some (mkLightBlock 4))
                                  (Some rt0) 2%N 4)
              (blk_of (HTOther 9) 2) 5%Z 9%N eq_refl) as [Hs Hk].
  vm_compute in Hs. inversion Hs.
Qed.

Lemma waitHooks_all_ready i k :
  waitHooks i k (repeat WakeHookInitialized k) = (map EHookInitialized (seq i k), WaitDone []).
Proof.
  revert i. induction k as [|k IH]; intros i; [reflexivity|].
  simpl. rewrite IH. reflexivity.
Qed.

Lemma transitions_app l1 l2 : transitions (l1 ++ l2) = transitions l1 ++ transitions l2.
Proof. apply filter_app. Qed.

Lemma transitions_map_seq (f : nat -> Effect) k n :
  (forall i, transitions [f i] = []) -> transitions (map f (seq k n)) = [].
Proof.
  intros Hf. revert k. induction n as [|n IH]; intros k; [reflexivity|].
  simpl. specialize (Hf k). unfold transitions in *. simpl in Hf |- *.
  destruct (_ || _); [discriminate|]. apply IH.
Qed.

Ltac transitions_simpl :=
  repeat (rewrite ?transitions_app, ?transitions_map_seq by (intros; reflexivity); simpl).

(** The runtime blocks of the scenario of section 8, at heights 1 to 4. *)
Definition scenario_blocks : list LoopEvent :=
  [EvRuntimeBlock (blk_of Normal 1) 1; EvRuntimeBlock (blk_of Normal 2) 2;
   EvRuntimeBlock (blk_of EpochTransition 3) 3; EvRuntimeBlock (blk_of Suspended 4) 4].

(** C8. For a block the handler processes to the end (light-block fetch
    and, when needed, the refresh succeed; header type handled), the trace
    is: the processed-block count, every hook's early callback, the
    dispatch (an epoch transition, a round transition, a failed round, or a
    suspend), the pool's ProcessBlock on the committed state, then every
    hook's new-block callback. Delivering Normal, Normal, EpochTransition,
    Suspended through the loop of a fresh node, with any number of hooks,
    gives the dispatch sequence: forced epoch transition, round
    transition, epoch transition, suspend. *)
Theorem block_steps_order :
  (forall C n s blk h cb,
     GetLightBlock C h = Ok cb ->
     (needs_refresh s blk = true -> refresh_ok C h = true) ->
     known_header (HeaderType_ (Header_ blk)) = true ->
     exists d,
       snd (handleNewBlockLocked C n s blk h)
       = EProcessedBlock :: for_hooks n EHookNewBlockEarly ++ d
           ++ [EPoolProcessBlock
                 {| BI_RuntimeBlock := CurrentBlock (fst (handleNewBlockLocked C n s blk h));
                    BI_ConsensusBlock :=
                      CurrentConsensusBlock (fst (handleNewBlockLocked C n s blk h));
                    BI_Epoch := CurrentEpoch (fst (handleNewBlockLocked C n s blk h));
                    BI_ActiveDescriptor :=
                      CurrentDescriptor (fst (handleNewBlockLocked C n s blk h)) |}]
           ++ for_hooks n EHookNewBlock /\
       (d = handleEpochTransitionLocked n h \/ d = [ERoundTransition] \/
        d = [ERoundTransition; EFailedRound] \/ d = handleSuspendLocked n h)) /\
  (forall n,
     transitions (result_trace (eventLoop C_ok n scenario_blocks
                                  (repeat WakeHookInitialized n) false s_start))
     = [EEpochTransition 1; ERoundTransition; EEpochTransition 3; ESuspend 4]).
Proof.
  split.
  - intros C n s blk h cb Hlb Hr Hk.
    assert (Hok : snd (if needs_refresh s blk
                       then refreshDescriptorEpoch C (set_block s blk h cb) h
                       else (set_block s blk h cb, true)) = true).
    { destruct (needs_refresh s blk); [|reflexivity].
      rewrite refreshDescriptorEpoch_ok. apply Hr. reflexivity. }
    pose proof (handleNewBlockLocked_trace_ok C n s blk h cb Hlb Hok) as Htr.
    cbv zeta in Htr. rewrite Htr.
    destruct (HeaderType_ (Header_ blk)); [| | | |discriminate];
      try destruct (CurrentBlock s); eexists; (split; [reflexivity|]); tauto.
  - intros n. unfold scenario_blocks. simpl.
    rewrite waitHooks_all_ready. simpl.
    unfold handleEpochTransitionLocked, handleSuspendLocked, for_hooks.
    transitions_simpl. reflexivity.
Qed.


Definition isProcessedBlock (e : Effect) : bool :=
  match e with EProcessedBlock => true | _ => false end.
(** Actions of the initialisation gate. *)
Definition init_action (e : Effect) : bool :=
  match e with ECloseInit | EHookInitialized _ => true | _ => false end.

(** Events of the loop that do not hand a runtime block over. *)
Definition passive (ev : LoopEvent) : bool :=
  match ev with
  | EvConsensusBlock (Some _) | EvRoothashEvent | EvHostEvent => true
  | _ => false
  end.



Lemma existsb_none (p : Effect -> bool) (l : list Effect) : forallb (fun e => negb (p e)) l = true -> existsb p l = false.
Proof.
  induction l as [|e l IH]; simpl; [reflexivity|].
  intros H. apply andb_prop in H. destruct H as [H1 H2].
  destruct (p e); [discriminate|]. apply IH, H2.
Qed.

Lemma forallb_for_hooks (P : Effect -> bool) n f :
  (forall i, P (f i) = true) -> forallb P (for_hooks n f) = true.
Proof.
  intros Hf. unfold for_hooks. apply forallb_forall. intros e Hin.
  apply in_map_iff in Hin. destruct Hin as [i [<- _]]. apply Hf.
Qed.

Lemma forallb_weaken (P Q : Effect -> bool) l :
  (forall e, P e = true -> Q e = true) -> forallb P l = true -> forallb Q l = true.
Proof.
  intros HPQ H. apply forallb_forall. intros e Hin.
  apply HPQ. eapply forallb_forall in H; eauto.
Qed.

Ltac forallb_simpl :=
  repeat (rewrite ?forallb_app, ?forallb_for_hooks by (intros; reflexivity); simpl).



Lemma waitHooks_shape i k wakes :
  exists j, j <= k /\ fst (waitHooks i k wakes) = map EHookInitialized (seq i j) /\
            (forall w', snd (waitHooks i k wakes) = WaitDone w' -> j = k).
Proof.
  revert i wakes. induction k as [|k IH]; intros i wakes.
  - exists 0. simpl. split; [lia|]. split; [reflexivity|]. reflexivity.
  - destruct wakes as [|[|] w']; simpl.
    + exists 0. split; [lia|]. split; [reflexivity|]. discriminate.
    + destruct (IH (S i) w') as [j [Hj [Htw Hd]]].
      destruct (waitHooks (S i) k w') as [tw o]. simpl in *.
      exists (S j). split; [lia|]. split; [rewrite Htw; reflexivity|].
      intros w'' Ho. specialize (Hd w'' Ho). lia.
    + exists 0. split; [lia|]. split; [reflexivity|]. discriminate.
Qed.

Lemma result_trace_prepend tr r : result_trace (prepend tr r) = tr ++ result_trace r.
Proof. destruct r; reflexivity. Qed.









(** C6. [QueueTx] turns the pool's duplicate condition into success and
    passes every other pool error through unchanged, for any pool; on the
    priority-queue pool, resubmitting a queued transaction returns success
    and leaves the pool, hence its size, as it was. *)
Theorem QueueTx_duplicate_success :
  (forall (P : Type) (TP : TxPool P) (pool : P) tx,
     (snd (Add pool tx) = None \/ snd (Add pool tx) = Some ErrCallAlreadyExists) ->
     QueueTx pool tx = (fst (Add pool tx), None)) /\
  (forall (P : Type) (TP : TxPool P) (pool : P) tx e,
     snd (Add pool tx) = Some e -> e <> ErrCallAlreadyExists ->
     QueueTx pool tx = (fst (Add pool tx), Some e)) /\
  (forall (q : PriorityQueue) tx,
     In (TxHash tx) (map TxHash (PQ_Txs q)) ->
     QueueTx q tx = (q, None) /\ Size (fst (QueueTx q tx)) = Size q).
Proof.
  split; [|split].
  - intros P TP pool tx H. unfold QueueTx.
    destruct (Add pool tx) as [p' [e|]]; simpl in H.
    + destruct H as [H|H]; [discriminate|]. injection H as ->. reflexivity.
    + reflexivity.
  - intros P TP pool tx e H Hne. unfold QueueTx.
    destruct (Add pool tx) as [p' [e'|]]; simpl in H; [|discriminate].
    injection H as ->. destruct e; [contradiction|reflexivity..].
  - intros q tx Hin.
    assert (Hex : existsb (fun t => Nat.eqb (TxHash t) (TxHash tx)) (PQ_Txs q) = true).
    { apply existsb_exists. apply in_map_iff in Hin. destruct Hin as [t [Ht Hin]].
      exists t. split; [exact Hin|]. apply Nat.eqb_eq. exact Ht. }
    assert (HQ : QueueTx q tx = (q, None)).
    { unfold QueueTx. simpl. unfold pq_add. rewrite Hex. reflexivity. }
    rewrite HQ. split; reflexivity.
Qed.

(** Actions the per-block handler can take. *)
Definition handler_action (e : Effect) : bool :=
  match e with
  | EProcessedBlock | EEpochTransition _ | ESuspend _ | ERoundTransition | EFailedRound
  | EHookEpochTransition _ | EHookNewBlockEarly _ | EHookNewBlock _ | EPoolProcessBlock _ => true
  | _ => false
  end.

(** Actions the main loop can take. *)
Definition loop_action (e : Effect) : bool :=
  handler_action e || init_action e ||
  match e with
  | EProcessedEvent | EHookNewEvent _ | EHookRuntimeHostEvent _ => true
  | _ => false
  end.

Lemma handleNewBlockLocked_actions C n s blk h :
  forallb handler_action (snd (handleNewBlockLocked C n s blk h)) = true.
Proof.
  destruct (GetLightBlock C h) as [cb|err] eqn:Hlb.
  - destruct (snd (if needs_refresh s blk
                   then refreshDescriptorEpoch C (set_block s blk h cb) h
                   else (set_block s blk h cb, true))) eqn:Hok.
    + pose proof (handleNewBlockLocked_trace_ok C n s blk h cb Hlb Hok) as Htr.
      cbv zeta in Htr. rewrite Htr.
      unfold handleEpochTransitionLocked, handleSuspendLocked.
      destruct (HeaderType_ (Header_ blk)); try destruct (CurrentBlock s); forallb_simpl;
        reflexivity.
    + rewrite (handleNewBlockLocked_trace_abort C n s blk h cb Hlb Hok). reflexivity.
  - unfold handleNewBlockLocked. rewrite Hlb. reflexivity.
Qed.

Lemma eventLoop_actions C n evs wakes ini s :
  forallb loop_action (result_trace (eventLoop C n evs wakes ini s)) = true.
Proof.
  assert (HH : forall s blk h,
             forallb loop_action (snd (handleNewBlockLocked C n s blk h)) = true).
  { intros s' blk h. eapply forallb_weaken; [|apply handleNewBlockLocked_actions].
    intros e He. unfold loop_action. rewrite He. reflexivity. }
  revert wakes ini s. induction evs as [|ev evs IH]; intros wakes ini s; [reflexivity|].
  destruct ev as [|[h|]|blk h| |]; simpl; try reflexivity.
  - apply IH.
  - destruct ini.
    + pose proof (HH s blk h) as Hh.
      destruct (handleNewBlockLocked C n s blk h) as [s' tr].
      rewrite result_trace_prepend, forallb_app. simpl in Hh. rewrite Hh. apply IH.
    + destruct (waitHooks_shape 0 n wakes) as [j [_ [Htw _]]].
      destruct (waitHooks 0 n wakes) as [tw o]. simpl in Htw. subst tw.
      assert (Hw : forallb loop_action (map EHookInitialized (seq 0 j)) = true).
      { apply forallb_forall. intros e Hin. apply in_map_iff in Hin.
        destruct Hin as [i [<- _]]. reflexivity. }
      destruct o as [w'| |]; simpl; rewrite ?Hw; try reflexivity.
      pose proof (HH s blk h) as Hh.
      destruct (handleNewBlockLocked C n s blk h) as [s' tr].
      rewrite result_trace_prepend. simpl. rewrite !forallb_app, Hw.
      simpl in Hh. rewrite Hh. apply IH.
  - rewrite result_trace_prepend, forallb_app. forallb_simpl. apply IH.
  - rewrite result_trace_prepend, forallb_app. forallb_simpl. apply IH.
Qed.

Lemma countP_none (P q : Effect -> bool) l :
  forallb P l = true -> (forall e, P e = true -> q e = false) -> countP q l = 0.
Proof.
  intros H Hq. induction l as [|e l IH]; [reflexivity|].
  simpl in H. apply andb_prop in H. destruct H as [H1 H2].
  rewrite countP_cons, Hq, IH by assumption. reflexivity.
Qed.

Lemma stop_calls_done k : stop_calls k true = (true, []).
Proof. induction k as [|k IH]; [reflexivity|]. simpl. rewrite IH. reflexivity. Qed.

Lemma ends_quit_base : exists pre, [ECloseQuit] = pre ++ [ECloseQuit].
Proof. exists []. reflexivity. Qed.

Lemma ends_quit_cons e l :
  (exists pre, l = pre ++ [ECloseQuit]) -> exists pre, e :: l = pre ++ [ECloseQuit].
Proof. intros [pre ->]. exists (e :: pre). reflexivity. Qed.

Lemma ends_quit_app l1 l2 :
  (exists pre, l2 = pre ++ [ECloseQuit]) -> exists pre, l1 ++ l2 = pre ++ [ECloseQuit].
Proof. intros [pre ->]. exists (l1 ++ pre). apply app_assoc. Qed.

Ltac ends_quit :=
  repeat first [ apply ends_quit_base | apply ends_quit_cons | apply ends_quit_app ].

(** C7. Any number [k] of calls of [Stop] close the stop channel and stop
    the pool exactly once when [k > 0] (never when [k = 0]); the worker
    closes the Quit channel once if it returns and not at all while it
    runs, and then as its very last action, after the loop has returned
    and the other deferred releases have run. *)
Theorem stop_idempotent_quit_last C n su evs wakes s0 k :
  countP isCloseStop (snd (stop_calls k false)) = Nat.min k 1 /\
  countP isPoolStop (snd (stop_calls k false)) = Nat.min k 1 /\
  countP isCloseQuit (snd (fst (worker C n su evs wakes s0)))
    = (if snd (worker C n su evs wakes s0) then 1 else 0) /\
  (snd (worker C n su evs wakes s0) = true ->
   exists pre, snd (fst (worker C n su evs wakes s0)) = pre ++ [ECloseQuit]).
Proof.
  split; [|split].
  - destruct k as [|k]; [reflexivity|]. simpl. rewrite stop_calls_done.
    unfold countP. simpl. rewrite Nat.min_0_r. reflexivity.
  - destruct k as [|k]; [reflexivity|]. simpl. rewrite stop_calls_done.
    unfold countP. simpl. rewrite Nat.min_0_r. reflexivity.
  - assert (Hl : forall evs wakes s,
               countP isCloseQuit (result_trace (eventLoop C n evs wakes false s)) = 0).
    { intros. eapply countP_none; [apply eventLoop_actions|].
      intros e. destruct e; try reflexivity; discriminate. }
    unfold worker.
    destruct su as [a b c d e f g h i j l]; simpl.
    destruct a; simpl; [|split; [reflexivity|intros _; ends_quit]].
    destruct b as [rt|err]; simpl; [|split; [reflexivity|intros _; ends_quit]].
    destruct (KeyManager rt); simpl;
    repeat match goal with
           | |- context [negb ?x] => destruct x; simpl
           end;
    try (split; [reflexivity|intros _; ends_quit]);
    (specialize (Hl evs wakes (set_descriptor s0 (Some rt)));
     destruct (eventLoop C n evs wakes false (set_descriptor s0 (Some rt))) as [s tr|s tr];
     simpl in Hl |- *; count_simpl; rewrite Hl; simpl;
     (split; [reflexivity | first [intros Hf; discriminate Hf | intros _; ends_quit]])).
Qed.

(** Every refresh either keeps the descriptor or installs the one the
    registry returned. *)
Lemma handleNewBlockLocked_descriptor C n s blk h :
  CurrentDescriptor (fst (handleNewBlockLocked C n s blk h)) = CurrentDescriptor s \/
  exists d, GetRuntime C h = Ok d /\
            CurrentDescriptor (fst (handleNewBlockLocked C n s blk h)) = Some d.
Proof.
  rewrite handleNewBlockLocked_state.
  destruct (GetLightBlock C h) as [cb|e]; [|left; reflexivity].
  destruct (needs_refresh s blk); [|left; reflexivity].
  unfold refreshDescriptorEpoch.
  destruct (GetRuntime C h) as [d|[|c]] eqn:E; try (left; reflexivity);
    destruct (GetEpoch C h) as [ep [e|]]; try (left; reflexivity);
    right; exists d; split; reflexivity.
Qed.

Lemma eventLoop_descriptor_not_nil C n evs wakes ini s :
  CurrentDescriptor s <> None ->
  CurrentDescriptor (result_state (eventLoop C n evs wakes ini s)) <> None.
Proof.
  revert wakes ini s. induction evs as [|ev evs IH]; intros wakes ini s Hs; [exact Hs|].
  assert (Hh : forall blk h,
             CurrentDescriptor (fst (handleNewBlockLocked C n s blk h)) <> None).
  { intros blk h. destruct (handleNewBlockLocked_descriptor C n s blk h) as [E|[d [_ E]]];
      rewrite E; [exact Hs|discriminate]. }
  assert (Hp : forall tr r, result_state (prepend tr r) = result_state r)
    by (intros tr r; destruct r; reflexivity).
  destruct ev as [|[h|]|blk h| |]; simpl; try exact Hs.
  - apply IH. exact Hs.
  - destruct ini.
    + specialize (Hh blk h). destruct (handleNewBlockLocked C n s blk h) as [s' tr].
      rewrite Hp. apply IH. exact Hh.
    + destruct (waitHooks 0 n wakes) as [tw [w'| |]]; simpl; try exact Hs.
      specialize (Hh blk h). destruct (handleNewBlockLocked C n s blk h) as [s' tr].
      rewrite Hp. apply IH. exact Hh.
  - rewrite Hp. apply IH. exact Hs.
  - rewrite Hp. apply IH. exact Hs.
Qed.

(** C10. Once the worker is past the wait for the active descriptor,
    CurrentDescriptor is non-nil in every state the worker reaches, for
    every sequence of events; and every per-block refresh either keeps the
    descriptor or replaces it with the one the registry returned. *)
Theorem descriptor_never_nil C n su evs wakes s0 rt :
  SU_SyncedBeforeStop su = true ->
  SU_ActiveDescriptor su = Ok rt ->
  CurrentDescriptor (fst (fst (worker C n su evs wakes s0))) <> None /\
  (forall s blk h,
     CurrentDescriptor (fst (handleNewBlockLocked C n s blk h)) = CurrentDescriptor s \/
     exists d, GetRuntime C h = Ok d /\
               CurrentDescriptor (fst (handleNewBlockLocked C n s blk h)) = Some d).
Proof.
  intros Hsync Hrt. split; [|apply handleNewBlockLocked_descriptor].
  pose proof (eventLoop_descriptor_not_nil C n evs wakes false (set_descriptor s0 (Some rt))
                ltac:(discriminate)) as Hl.
  unfold worker. rewrite Hsync, Hrt. simpl.
  destruct (KeyManager rt); simpl;
  repeat match goal with
         | |- context [negb ?x] => destruct x; simpl
         end;
  try discriminate;
  destruct (eventLoop C n evs wakes false (set_descriptor s0 (Some rt))); exact Hl.
Qed.

Lemma descriptor_never_nil_witness :
  let su := mkStartup true (Ok rt0) true true true true true true true true true in
  (SU_SyncedBeforeStop su = true /\ SU_ActiveDescriptor su = Ok rt0) /\
  CurrentDescriptor (fst (fst (worker C_ok 1 su [EvRuntimeBlock (blk_of Normal 1) 1]
                                        [WakeHookInitialized]
                                        (mkNodeState None 0 None None 0%N 0)))) <> None.
Proof.
  simpl. split; [split; reflexivity|].
  apply (descriptor_never_nil C_ok 1
           (mkStartup true (Ok rt0) true true true true true true true true true)
           [EvRuntimeBlock (blk_of Normal 1) 1] [WakeHookInitialized]
           (mkNodeState None 0 None None 0%N 0) rt0); reflexivity.
Defined.

(** ** Further properties of the committee node *)

Definition isFailedRound (e : Effect) : bool :=
  match e with EFailedRound => true | _ => false end.

(** Whether every startup step of [worker] succeeds, so that it reaches the
    main loop. *)
Definition startup_completes (su : Startup) : bool :=
  SU_SyncedBeforeStop su &&
  match SU_ActiveDescriptor su with
  | Ok rt =>
      match KeyManager rt with
      | Some _ => SU_KeyManagerClientOk su && SU_KeyManagerReady su
      | None => true
      end
  | Err _ => false
  end &&
  SU_WatchConsensusBlocksOk su && SU_WatchBlocksOk su && SU_WatchEventsOk su &&
  SU_ProvisionOk su && SU_HrtWatchEventsOk su && SU_HrtStartOk su && SU_NotifierStartOk su.

(** The releases deferred by a fully started worker, in the order they run. *)
Definition worker_releases : list Effect :=
  [ENotifierStop; EHrtStop; ECloseHrtSub; ECloseEventsSub; ECloseBlocksSub;
   ECloseConsensusBlocksSub; ECancelCtx; ECloseQuit].

(** The Height left by a run of consensus-block events. *)
Fixpoint last_consensus_height (evs : list LoopEvent) (h0 : Z) : Z :=
  match evs with
  | [] => h0
  | EvConsensusBlock (Some h) :: evs' => last_consensus_height evs' h
  | _ :: evs' => last_consensus_height evs' h0
  end.

Definition isRuntimeBlockEvent (ev : LoopEvent) : bool :=
  match ev with EvRuntimeBlock _ _ => true | _ => false end.

(** Events on which the loop does not return. *)
Definition keeps_running (ev : LoopEvent) : bool :=
  match ev with EvStop | EvConsensusBlock None => false | _ => true end.

(** A status taken before any block reports round and height 0 and asks
    the scheduler question for round 0; after a handler run whose
    light-block fetch succeeded, it reports the block's round and height,
    whatever the header type and whether the refresh failed. *)
Theorem GetStatus_reports_committed_block C n s blk h cb ep peers :
  (CurrentBlock s = None ->
     LatestRound (GetStatus s ep peers) = 0%Z /\ LatestHeight (GetStatus s ep peers) = 0%Z /\
     IsTransactionScheduler (GetStatus s ep peers) = IsTransactionSchedulerAt ep 0) /\
  (GetLightBlock C h = Ok cb ->
     LatestRound (GetStatus (fst (handleNewBlockLocked C n s blk h)) ep peers)
       = Round (Header_ blk) /\
     LatestHeight (GetStatus (fst (handleNewBlockLocked C n s blk h)) ep peers) = h).
Proof.
  split.
  - intros H. unfold GetStatus. rewrite H. repeat split.
  - intros Hlb.
    assert (Hc : CurrentBlock (fst (handleNewBlockLocked C n s blk h)) = Some blk /\
                 CurrentBlockHeight (fst (handleNewBlockLocked C n s blk h)) = h).
    { rewrite handleNewBlockLocked_state, Hlb.
      destruct (needs_refresh s blk); [|split; reflexivity].
      unfold refreshDescriptorEpoch.
      destruct (GetRuntime C h) as [d|[|c]]; try (split; reflexivity);
        destruct (GetEpoch C h) as [e [x|]]; split; reflexivity. }
    destruct Hc as [H1 H2]. unfold GetStatus. rewrite H1. simpl. split; [reflexivity|exact H2].
Qed.

(** When the epoch lookup of a refresh fails, the handler stops without any
    hook or pool call, but it has already committed the block and stored
    in CurrentEpoch the value [GetEpoch] returned with its error. *)
Theorem epoch_lookup_failure_stores_returned_epoch C n s blk h cb err :
  GetLightBlock C h = Ok cb ->
  needs_refresh s blk = true ->
  (forall c, GetRuntime C h <> Err (ErrOther c)) ->
  snd (GetEpoch C h) = Some err ->
  snd (handleNewBlockLocked C n s blk h) = [EProcessedBlock] /\
  CurrentBlock (fst (handleNewBlockLocked C n s blk h)) = Some blk /\
  CurrentConsensusBlock (fst (handleNewBlockLocked C n s blk h)) = Some cb /\
  CurrentEpoch (fst (handleNewBlockLocked C n s blk h)) = fst (GetEpoch C h).
Proof.
  intros Hlb Hn Hrt Hep.
  assert (Hr : refresh_ok C h = false).
  { unfold refresh_ok. destruct (GetRuntime C h) as [d|[|c]];
      [rewrite Hep; reflexivity | rewrite Hep; reflexivity | exfalso; eapply Hrt; reflexivity]. }
  split.
  - apply (handleNewBlockLocked_trace_abort C n s blk h cb Hlb).
    rewrite Hn, refreshDescriptorEpoch_ok. exact Hr.
  - rewrite handleNewBlockLocked_state, Hlb, Hn. unfold refreshDescriptorEpoch.
    destruct (GetEpoch C h) as [e x]. simpl in Hep. subst x.
    destruct (GetRuntime C h) as [d|[|c]];
      [ | | exfalso; eapply Hrt; reflexivity]; repeat split.
Qed.

Lemma epoch_lookup_failure_stores_returned_epoch_witness :
  let C := mkConsensus (GetLightBlock C_ok) (GetRuntime C_ok) (fun _ => (7%N, Some (ErrOther 1))) in
  (GetLightBlock C 5 = Ok (mkLightBlock 5) /\ needs_refresh s_start (blk_of Normal 1) = true /\
   (forall c, GetRuntime C 5 <> Err (ErrOther c)) /\ snd (GetEpoch C 5) = Some (ErrOther 1)) /\
  CurrentEpoch (fst (handleNewBlockLocked C 1 s_start (blk_of Normal 1) 5)) = 7%N.
Proof.
  simpl. split; [split; [reflexivity|split; [reflexivity|split; [discriminate|reflexivity]]]|].
  destruct (epoch_lookup_failure_stores_returned_epoch
              (mkConsensus (GetLightBlock C_ok) (GetRuntime C_ok) (fun _ => (7%N, Some (ErrOther 1))))
              1 s_start (blk_of Normal 1) 5 (mkLightBlock 5) (ErrOther 1)
              eq_refl eq_refl ltac:(discriminate) eq_refl) as [_ [_ [_ H]]].
  exact H.
Defined.

(** A refresh whose lookups succeed installs the looked-up descriptor and
    epoch together with the block, and changes nothing else. *)
Theorem refresh_success_installs_descriptor_and_epoch C n s blk h cb d ep :
  GetLightBlock C h = Ok cb ->
  needs_refresh s blk = true ->
  GetRuntime C h = Ok d ->
  GetEpoch C h = (ep, None) ->
  fst (handleNewBlockLocked C n s blk h)
  = {| CurrentBlock := Some blk; CurrentBlockHeight := h; CurrentConsensusBlock := Some cb;
       CurrentDescriptor := Some d; CurrentEpoch := ep; Height := Height s |}.
Proof.
  intros Hlb Hn Hrt Hep.
  rewrite handleNewBlockLocked_state, Hlb, Hn. unfold refreshDescriptorEpoch.
  rewrite Hrt, Hep. reflexivity.
Qed.

Lemma refresh_success_installs_descriptor_and_epoch_witness :
  (GetLightBlock C_ok 5 = Ok (mkLightBlock 5) /\
   needs_refresh s_start (blk_of EpochTransition 1) = true /\
   GetRuntime C_ok 5 = Ok (mkRuntime 1 5 None) /\ GetEpoch C_ok 5 = (5%N, None)) /\
  CurrentDescriptor (fst (handleNewBlockLocked C_ok 1 s_start (blk_of EpochTransition 1) 5))
    = Some (mkRuntime 1 5 None).
Proof.
  split; [repeat split|].
  rewrite (refresh_success_installs_descriptor_and_epoch C_ok 1 s_start
             (blk_of EpochTransition 1) 5 (mkLightBlock 5) (mkRuntime 1 5 None) 5%N);
    reflexivity.
Defined.

(** After the first block, a Normal or RoundFailed block whose light block
    is fetched is handled without a refresh: the state takes the block and
    nothing else, the only transition is one round transition, and the
    failed-round counter moves exactly for RoundFailed. *)
Theorem non_first_block_round_transition C n s blk h cb b0 :
  CurrentBlock s = Some b0 ->
  GetLightBlock C h = Ok cb ->
  HeaderType_ (Header_ blk) = Normal \/ HeaderType_ (Header_ blk) = RoundFailed ->
  fst (handleNewBlockLocked C n s blk h) = set_block s blk h cb /\
  transitions (snd (handleNewBlockLocked C n s blk h)) = [ERoundTransition] /\
  countP isFailedRound (snd (handleNewBlockLocked C n s blk h))
  = (if HeaderType_eqb (HeaderType_ (Header_ blk)) RoundFailed then 1 else 0).
Proof.
  intros Hcb Hlb Ht.
  assert (Hn : needs_refresh s blk = false).
  { unfold needs_refresh. rewrite Hcb. destruct Ht as [E|E]; rewrite E; reflexivity. }
  split.
  - rewrite handleNewBlockLocked_state, Hlb, Hn. reflexivity.
  - assert (Hok : snd (if needs_refresh s blk
                       then refreshDescriptorEpoch C (set_block s blk h cb) h
                       else (set_block s blk h cb, true)) = true) by (rewrite Hn; reflexivity).
    pose proof (handleNewBlockLocked_trace_ok C n s blk h cb Hlb Hok) as Htr.
    cbv zeta in Htr. rewrite Htr, Hcb.
    destruct Ht as [E|E]; rewrite E; split;
      [ unfold for_hooks; transitions_simpl; reflexivity | count_simpl; reflexivity
      | unfold for_hooks; transitions_simpl; reflexivity | count_simpl; reflexivity ].
Qed.

Lemma non_first_block_round_transition_witness :
  let s := fst (handleNewBlockLocked C_ok 1 s_start (blk_of Normal 1) 1) in
  (CurrentBlock s = Some (blk_of Normal 1) /\ GetLightBlock C_ok 2 = Ok (mkLightBlock 2) /\
   (HeaderType_ (Header_ (blk_of RoundFailed 2)) = Normal \/
    HeaderType_ (Header_ (blk_of RoundFailed 2)) = RoundFailed)) /\
  countP isFailedRound (snd (handleNewBlockLocked C_ok 1 s (blk_of RoundFailed 2) 2)) = 1.
Proof.
  split; [split; [reflexivity|split; [reflexivity|right; reflexivity]]|].
  destruct (non_first_block_round_transition C_ok 1
              (fst (handleNewBlockLocked C_ok 1 s_start (blk_of Normal 1) 1))
              (blk_of RoundFailed 2) 2 (mkLightBlock 2) (blk_of Normal 1)
              eq_refl eq_refl (or_intror eq_refl)) as [_ [_ H]].
  exact H.
Defined.

(** The first-block treatment is used up as soon as the light block of a
    block is fetched, even when the refresh that follows fails: the next
    Normal or RoundFailed block is then handled with a round transition,
    never with the epoch transition of a first block. *)
Theorem first_block_treatment_consumed_by_fetch C n s b1 h1 cb1 b2 h2 cb2 :
  GetLightBlock C h1 = Ok cb1 ->
  GetLightBlock C h2 = Ok cb2 ->
  HeaderType_ (Header_ b2) = Normal \/ HeaderType_ (Header_ b2) = RoundFailed ->
  transitions (snd (handleNewBlockLocked C n (fst (handleNewBlockLocked C n s b1 h1)) b2 h2))
  = [ERoundTransition].
Proof.
  intros H1 H2 Ht.
  remember (fst (handleNewBlockLocked C n s b1 h1)) as s1 eqn:Hs1.
  assert (Hcb : CurrentBlock s1 = Some b1).
  { subst s1. rewrite handleNewBlockLocked_state, H1.
    destruct (needs_refresh s b1); [|reflexivity].
    unfold refreshDescriptorEpoch.
    destruct (GetRuntime C h1) as [d|[|c]]; try reflexivity;
      destruct (GetEpoch C h1) as [e [x|]]; reflexivity. }
  assert (Hn : needs_refresh s1 b2 = false).
  { unfold needs_refresh. rewrite Hcb. destruct Ht as [E|E]; rewrite E; reflexivity. }
  assert (Hok : snd (if needs_refresh s1 b2
                     then refreshDescriptorEpoch C (set_block s1 b2 h2 cb2) h2
                     else (set_block s1 b2 h2 cb2, true)) = true) by (rewrite Hn; reflexivity).
  pose proof (handleNewBlockLocked_trace_ok C n s1 b2 h2 cb2 H2 Hok) as Htr.
  cbv zeta in Htr. rewrite Htr, Hcb.
  destruct Ht as [E|E]; rewrite E; unfold for_hooks; transitions_simpl; reflexivity.
Qed.

(** A backend whose epoch lookups fail: the refresh of the first block
    fails after its light block has been fetched. *)
Definition C_epoch_fails : Consensus :=
  mkConsensus (GetLightBlock C_ok) (GetRuntime C_ok) (fun h => (Z.to_N h, Some (ErrOther 0))).

Lemma first_block_treatment_consumed_by_fetch_witness :
  (GetLightBlock C_epoch_fails 1 = Ok (mkLightBlock 1) /\
   GetLightBlock C_epoch_fails 2 = Ok (mkLightBlock 2) /\
   (HeaderType_ (Header_ (blk_of Normal 2)) = Normal \/
    HeaderType_ (Header_ (blk_of Normal 2)) = RoundFailed)) /\
  transitions (snd (handleNewBlockLocked C_epoch_fails 1 s_start (blk_of Normal 1) 1)) = [] /\
  transitions (snd (handleNewBlockLocked C_epoch_fails 1
                      (fst (handleNewBlockLocked C_epoch_fails 1 s_start (blk_of Normal 1) 1))
                      (blk_of Normal 2) 2)) = [ERoundTransition].
Proof.
  split; [split; [reflexivity|split; [reflexivity|left; reflexivity]]|].
  split; [vm_compute; reflexivity|].
  exact (first_block_treatment_consumed_by_fetch C_epoch_fails 1 s_start
           (blk_of Normal 1) 1 (mkLightBlock 1) (blk_of Normal 2) 2 (mkLightBlock 2)
           eq_refl eq_refl (or_introl eq_refl)).
Defined.

(** Consensus blocks, roothash events and hosted-runtime events never hand
    a block to the handler: over any run of them the loop keeps waiting,
    takes no block-handling, pool or initialisation action, and changes no
    protected field but Height, which ends at the height of the last
    consensus block. *)
Theorem passive_events_only_set_height C n evs wakes ini s :
  forallb passive evs = true ->
  exists tr,
    eventLoop C n evs wakes ini s
    = LoopBlocked (set_height s (last_consensus_height evs (Height s))) tr /\
    forallb (fun e => negb (handler_action e || init_action e)) tr = true.
Proof.
  revert s. induction evs as [|ev evs IH]; intros s Hp.
  - exists []. destruct s; split; reflexivity.
  - simpl in Hp. apply andb_prop in Hp. destruct Hp as [Hev Hp].
    destruct ev as [|[h|]|blk h| |]; try discriminate Hev; simpl.
    + destruct (IH (set_height s h) Hp) as [tr [E F]].
      exists tr. rewrite E. split; [destruct s; reflexivity|exact F].
    + destruct (IH s Hp) as [tr [E F]]. rewrite E. simpl.
      eexists. split; [reflexivity|]. forallb_simpl. exact F.
    + destruct (IH s Hp) as [tr [E F]]. rewrite E. simpl.
      eexists. split; [reflexivity|]. forallb_simpl. exact F.
Qed.

Lemma passive_events_only_set_height_witness :
  forallb passive [EvConsensusBlock (Some 4%Z); EvRoothashEvent; EvHostEvent] = true /\
  Height (result_state (eventLoop C_ok 2 [EvConsensusBlock (Some 4%Z); EvRoothashEvent; EvHostEvent]
                          [] false s_start)) = 4%Z.
Proof.
  split; [reflexivity|].
  destruct (passive_events_only_set_height C_ok 2
              [EvConsensusBlock (Some 4%Z); EvRoothashEvent; EvHostEvent] [] false s_start
              eq_refl) as [tr [E _]].
  rewrite E. reflexivity.
Defined.

(** [su] with other outcomes for the key-manager client and its readiness. *)
Definition with_key_manager (su : Startup) (client_ok ready : bool) : Startup :=
  {| SU_SyncedBeforeStop := SU_SyncedBeforeStop su;
     SU_ActiveDescriptor := SU_ActiveDescriptor su;
     SU_KeyManagerClientOk := client_ok;
     SU_KeyManagerReady := ready;
     SU_WatchConsensusBlocksOk := SU_WatchConsensusBlocksOk su;
     SU_WatchBlocksOk := SU_WatchBlocksOk su;
     SU_WatchEventsOk := SU_WatchEventsOk su;
     SU_ProvisionOk := SU_ProvisionOk su;
     SU_HrtWatchEventsOk := SU_HrtWatchEventsOk su;
     SU_HrtStartOk := SU_HrtStartOk su;
     SU_NotifierStartOk := SU_NotifierStartOk su |}.

(** A worker whose startup completes starts the hosted runtime and the
    notifier, runs the main loop on the state holding the active
    descriptor, and, if the loop returns, releases everything it acquired
    in the reverse order of acquisition, ending with Quit. *)
Theorem worker_full_startup_brackets_loop C n su evs wakes s0 rt :
  startup_completes su = true ->
  SU_ActiveDescriptor su = Ok rt ->
  worker C n su evs wakes s0
  = match eventLoop C n evs wakes false (set_descriptor s0 (Some rt)) with
    | LoopReturned s tr => (s, [EHrtStart; ENotifierStart] ++ tr ++ worker_releases, true)
    | LoopBlocked s tr => (s, [EHrtStart; ENotifierStart] ++ tr, false)
    end.
Proof.
  intros Hs Hd. unfold startup_completes in Hs. rewrite Hd in Hs.
  apply andb_prop in Hs as [Hs H8]. apply andb_prop in Hs as [Hs H7].
  apply andb_prop in Hs as [Hs H6]. apply andb_prop in Hs as [Hs H5].
  apply andb_prop in Hs as [Hs H4]. apply andb_prop in Hs as [Hs H3].
  apply andb_prop in Hs as [Hs H2]. apply andb_prop in Hs as [H0 H1].
  unfold worker. rewrite H0, Hd. cbv zeta. rewrite H1, H2, H3, H4, H5, H6, H7, H8. simpl.
  destruct (eventLoop C n evs wakes false (set_descriptor s0 (Some rt))) as [s tr|s tr];
    simpl; rewrite <- ?app_assoc; reflexivity.
Qed.

Lemma worker_full_startup_brackets_loop_witness :
  let su := mkStartup true (Ok rt0) false false true true true true true true true in
  (startup_completes su = true /\ SU_ActiveDescriptor su = Ok rt0) /\
  snd (worker C_ok 0 su [EvStop] [] s_start) = true.
Proof.
  split; [split; reflexivity|].
  rewrite (worker_full_startup_brackets_loop C_ok 0
             (mkStartup true (Ok rt0) false false true true true true true true true)
             [EvStop] [] s_start rt0 eq_refl eq_refl).
  reflexivity.
Defined.

(** A worker whose startup does not complete returns without running the
    loop: no block is handled, no hook is called, initCh is not closed;
    the state gains at most the active descriptor; and its trace consists
    of the starts it attempted followed by the releases of exactly what it
    had acquired, a tail of the full release order ending with Quit. *)
Theorem worker_startup_failure_skips_loop C n su evs wakes s0 :
  startup_completes su = false ->
  snd (worker C n su evs wakes s0) = true /\
  forallb (fun e => negb (loop_action e)) (snd (fst (worker C n su evs wakes s0))) = true /\
  (fst (fst (worker C n su evs wakes s0)) = s0 \/
   exists rt, SU_ActiveDescriptor su = Ok rt /\
              fst (fst (worker C n su evs wakes s0)) = set_descriptor s0 (Some rt)) /\
  exists k, 1 <= k <= 6 /\
    snd (fst (worker C n su evs wakes s0))
    = firstn (3 - k) [EHrtStart; ENotifierStart] ++ skipn k worker_releases.
Proof.
  intros Hs. unfold startup_completes in Hs. unfold worker.
  destruct (SU_SyncedBeforeStop su); simpl in Hs |- *;
    [| split; [reflexivity|split; [reflexivity|split; [left; reflexivity|exists 6; split; [lia|reflexivity]]]]].
  destruct (SU_ActiveDescriptor su) as [rt|e] eqn:Hd; simpl in Hs |- *;
    [| split; [reflexivity|split; [reflexivity|split; [left; reflexivity|exists 6; split; [lia|reflexivity]]]]].
  assert (Hrt : exists r, Ok rt = Ok r /\
                  set_descriptor s0 (Some rt) = set_descriptor s0 (Some r)) by (exists rt; split; reflexivity).
  destruct (match KeyManager rt with
            | Some _ => SU_KeyManagerClientOk su && SU_KeyManagerReady su
            | None => true end);
    destruct (SU_WatchConsensusBlocksOk su); destruct (SU_WatchBlocksOk su);
    destruct (SU_WatchEventsOk su); destruct (SU_ProvisionOk su);
    destruct (SU_HrtWatchEventsOk su); destruct (SU_HrtStartOk su);
    destruct (SU_NotifierStartOk su); simpl in Hs |- *; try discriminate Hs;
    (split; [reflexivity|split; [reflexivity|split; [right; exact Hrt|]]]);
    first [ exists 6; split; [lia|reflexivity] | exists 5; split; [lia|reflexivity]
          | exists 4; split; [lia|reflexivity] | exists 3; split; [lia|reflexivity]
          | exists 2; split; [lia|reflexivity] | exists 1; split; [lia|reflexivity] ].
Qed.

Lemma worker_startup_failure_skips_loop_witness :
  let su := mkStartup true (Ok rt0) true true true true true true true false true in
  startup_completes su = false /\
  snd (fst (worker C_ok 1 su [EvRuntimeBlock (blk_of Normal 1) 1] [WakeHookInitialized] s_start))
  = [EHrtStart; ECloseHrtSub; ECloseEventsSub; ECloseBlocksSub; ECloseConsensusBlocksSub;
     ECancelCtx; ECloseQuit].
Proof.
  split; [reflexivity|].
  destruct (worker_startup_failure_skips_loop C_ok 1
              (mkStartup true (Ok rt0) true true true true true true true false true)
              [EvRuntimeBlock (blk_of Normal 1) 1] [WakeHookInitialized] s_start eq_refl)
    as [_ [_ [_ [k [Hk E]]]]].
  rewrite E.
  destruct k as [|[|[|[|[|[|[|k]]]]]]]; try lia; vm_compute in E |- *; try discriminate E; reflexivity.
Defined.

(** The key-manager outcomes matter only for a runtime that requires a key
    manager: for one that does not, the worker behaves the same whatever
    they are; for one that does, a failed client or a key manager that is
    not ready makes the worker return, with the descriptor set, before any
    subscription, releasing only the context and Quit. *)
Theorem worker_key_manager_gate C n su evs wakes s0 rt :
  SU_ActiveDescriptor su = Ok rt ->
  (KeyManager rt = None ->
     forall client_ok ready,
       worker C n (with_key_manager su client_ok ready) evs wakes s0
       = worker C n su evs wakes s0) /\
  (forall km, KeyManager rt = Some km -> SU_SyncedBeforeStop su = true ->
     SU_KeyManagerClientOk su && SU_KeyManagerReady su = false ->
     worker C n su evs wakes s0 = (set_descriptor s0 (Some rt), [ECancelCtx; ECloseQuit], true)).
Proof.
  intros Hd. split.
  - intros Hkm a b. unfold worker, with_key_manager. simpl. rewrite Hd, Hkm. reflexivity.
  - intros km Hkm Hsync Hf. unfold worker. rewrite Hsync, Hd, Hkm, Hf. reflexivity.
Qed.

Lemma worker_key_manager_gate_witness :
  let su := mkStartup true (Ok rt0) false false true true true true true true true in
  SU_ActiveDescriptor su = Ok rt0 /\
  worker C_ok 0 (with_key_manager su true true) [EvStop] [] s_start
  = worker C_ok 0 su [EvStop] [] s_start.
Proof.
  split; [reflexivity|].
  destruct (worker_key_manager_gate C_ok 0
              (mkStartup true (Ok rt0) false false true true true true true true true)
              [EvStop] [] s_start rt0 eq_refl) as [H _].
  exact (H eq_refl true true).
Defined.

Lemma handleNewBlockLocked_processed_once C n s blk h :
  countP isProcessedBlock (snd (handleNewBlockLocked C n s blk h)) = 1.
Proof.
  destruct (GetLightBlock C h) as [cb|err] eqn:Hlb.
  - destruct (snd (if needs_refresh s blk
                   then refreshDescriptorEpoch C (set_block s blk h cb) h
                   else (set_block s blk h cb, true))) eqn:Hok.
    + pose proof (handleNewBlockLocked_trace_ok C n s blk h cb Hlb Hok) as Htr.
      cbv zeta in Htr. rewrite Htr.
      unfold handleEpochTransitionLocked, handleSuspendLocked.
      destruct (HeaderType_ (Header_ blk)); try destruct (CurrentBlock s); count_simpl;
        reflexivity.
    + rewrite (handleNewBlockLocked_trace_abort C n s blk h cb Hlb Hok). reflexivity.
  - unfold handleNewBlockLocked. rewrite Hlb. reflexivity.
Qed.

(** Once initialised, the loop counts every runtime block it receives in
    the processed-block metric exactly once, including blocks the handler
    drops: as long as it is not stopped, the count equals the number of
    runtime blocks received. *)
Theorem processed_block_count_matches_blocks C n evs wakes s :
  forallb keeps_running evs = true ->
  countP isProcessedBlock (result_trace (eventLoop C n evs wakes true s))
  = List.length (filter isRuntimeBlockEvent evs).
Proof.
  revert s. induction evs as [|ev evs IH]; intros s Hk; [reflexivity|].
  simpl in Hk. apply andb_prop in Hk. destruct Hk as [Hev Hk].
  destruct ev as [|[h|]|blk h| |]; try discriminate Hev; simpl.
  - apply IH, Hk.
  - pose proof (handleNewBlockLocked_processed_once C n s blk h) as H1.
    destruct (handleNewBlockLocked C n s blk h) as [s' tr]. simpl in H1.
    rewrite result_trace_prepend, countP_app, H1, IH by exact Hk. reflexivity.
  - rewrite result_trace_prepend, countP_app. count_simpl. apply IH, Hk.
  - rewrite result_trace_prepend, countP_app. count_simpl. apply IH, Hk.
Qed.

Lemma processed_block_count_matches_blocks_witness :
  let evs := [EvRuntimeBlock (blk_of Normal 1) 1; EvRoothashEvent;
              EvRuntimeBlock (blk_of (HTOther 9) 2) 2] in
  forallb keeps_running evs = true /\
  countP isProcessedBlock (result_trace (eventLoop C_epoch_fails 1 evs [] true s_start)) = 2.
Proof.
  split; [reflexivity|].
  exact (processed_block_count_matches_blocks C_epoch_fails 1
           [EvRuntimeBlock (blk_of Normal 1) 1; EvRoothashEvent;
            EvRuntimeBlock (blk_of (HTOther 9) 2) 2] [] s_start eq_refl).
Defined.

(** ** Properties of the simple scheduler *)

(** The pool implementation name is compared exactly (no case folding):
    every other name, whatever its spelling, is rejected with an error that
    quotes it, and no scheduler is built. *)
Theorem Simple_New_rejects_other_pool {Pool} (pqNew : PoolConfig -> Pool) pqName impl m w :
  impl <> pqName ->
  Simple.New pqNew pqName impl m w = Simple.NewErr (Simple.ErrInvalidTxPool impl).
Proof.
  intros Hne. unfold Simple.New.
  destruct (String.eqb_spec impl pqName); [contradiction|reflexivity].
Qed.

(** Pools that record the configurations they are given. *)
Definition config_log_new (c : PoolConfig) : list PoolConfig := [c].
Definition config_log_update (l : list PoolConfig) (c : PoolConfig) : list PoolConfig := l ++ [c].

Lemma Simple_New_rejects_other_pool_witness :
  ("Priority-Queue"%string <> "priority-queue"%string) /\
  Simple.New config_log_new "priority-queue" "Priority-Queue" 10 []
  = Simple.NewErr (Simple.ErrInvalidTxPool "Priority-Queue").
Proof.
  split; [discriminate|].
  apply Simple_New_rejects_other_pool. discriminate.
Defined.

(** A scheduler built by [New] hands its pool the configuration it was
    built with, and every later [UpdateParameters] replaces the weight
    limits only: the pool's capacity stays the one given to [New]. *)
Theorem Simple_UpdateParameters_keeps_capacity {Pool} (pqNew : PoolConfig -> Pool) upd
    pqName impl m w0 ws s :
  Simple.New pqNew pqName impl m w0 = Simple.NewOk s ->
  Simple.maxTxPoolSize (Simple.update_all upd s ws) = m /\
  Simple.txPool (Simple.update_all upd s ws)
  = fold_left (fun p w => upd p (mkPoolConfig m w)) ws (pqNew (mkPoolConfig m w0)).
Proof.
  unfold Simple.New. destruct (String.eqb impl pqName); intros H; [|discriminate H].
  injection H as <-. unfold Simple.update_all.
  generalize (pqNew (mkPoolConfig m w0)). induction ws as [|w ws IH]; intros p.
  - split; reflexivity.
  - simpl. apply IH.
Qed.

Lemma Simple_UpdateParameters_keeps_capacity_witness :
  let s := Simple.mkScheduler _ (config_log_new (mkPoolConfig 10 [("gas"%string, 5)])) 10 in
  Simple.New config_log_new "priority-queue" "priority-queue" 10 [("gas"%string, 5)]
  = Simple.NewOk s /\
  map MaxPoolSize (Simple.txPool (Simple.update_all config_log_update s
                                    [[("gas"%string, 7)]; []])) = [10; 10; 10].
Proof.
  split; [reflexivity|].
  destruct (Simple_UpdateParameters_keeps_capacity config_log_new config_log_update
              "priority-queue" "priority-queue" 10 [("gas"%string, 5)] [[("gas"%string, 7)]; []]
              (Simple.mkScheduler _ (config_log_new (mkPoolConfig 10 [("gas"%string, 5)])) 10)
              eq_refl) as [_ E].
  rewrite E. reflexivity.
Defined.

(** ** Properties of the libp2p key conversions *)

(** [PubKeyToPublicKey] checks the key type before anything else: a key of
    another type is refused as not supported (even if its [Raw] would
    fail), and an Ed25519 key whose [Raw] fails gives that error; both
    return the zero key. *)
Theorem PubKeyToPublicKey_refusals PublicKey pk_bytes (pk_zero : PublicKey) unm
    (k : P2PKeys.PubKey PublicKey) :
  (P2PKeys.KeyType_eqb (P2PKeys.PubKey_Type _ k) P2PKeys.Ed25519 = false ->
     P2PKeys.PubKeyToPublicKey pk_bytes pk_zero unm k
     = (pk_zero, Some P2PKeys.ErrCryptoNotSupported)) /\
  (forall e, P2PKeys.KeyType_eqb (P2PKeys.PubKey_Type _ k) P2PKeys.Ed25519 = true ->
     snd (P2PKeys.PubKey_Raw pk_bytes k) = Some e ->
     P2PKeys.PubKeyToPublicKey pk_bytes pk_zero unm k = (pk_zero, Some e)).
Proof.
  split.
  - intros Ht. unfold P2PKeys.PubKeyToPublicKey. rewrite Ht. reflexivity.
  - intros e Ht He. unfold P2PKeys.PubKeyToPublicKey. rewrite Ht. simpl.
    destruct k as [inner|id ty raw err]; simpl in He |- *; [discriminate He|].
    subst err. reflexivity.
Qed.

(** Whenever [UnmarshalBinary] decodes the bytes of a key back to it, the
    signer's public key survives every conversion: [GetPublic] does not
    panic, and converting its result back with [PubKeyToPublicKey], or
    unmarshalling its [Raw] bytes with [unmarshalPublicKey], gives back
    the signer's key and the same libp2p key. *)
Theorem p2p_public_key_roundtrip PublicKey pk_bytes (pk_zero : PublicKey) unm Signer
    (Public : Signer -> PublicKey) (sg : Signer) :
  unm pk_zero (pk_bytes (Public sg)) = (Public sg, None) ->
  exists k,
    P2PKeys.GetPublic Public (P2PKeys.WrapSigner sg) = Some k /\
    P2PKeys.PublicKeyToPubKey (Public sg) = (k, None) /\
    P2PKeys.PubKeyToPublicKey pk_bytes pk_zero unm k = (Public sg, None) /\
    P2PKeys.unmarshalPublicKey pk_zero unm (fst (P2PKeys.PubKey_Raw pk_bytes k)) = (Some k, None).
Proof.
  intros Hu. exists (P2PKeys.Libp2pPublicKey (Public sg)).
  unfold P2PKeys.GetPublic, P2PKeys.PubKeyToPublicKey, P2PKeys.unmarshalPublicKey. simpl.
  rewrite Hu. repeat split.
Qed.

Definition key_a : list Byte.byte := repeat Byte.x01 32%nat.

Lemma p2p_public_key_roundtrip_witness :
  P2PKeys.bytes32_unmarshal P2PKeys.bytes32_zero key_a = (key_a, None) /\
  P2PKeys.PubKeyToPublicKey (fun k => k) P2PKeys.bytes32_zero P2PKeys.bytes32_unmarshal
    (P2PKeys.Libp2pPublicKey key_a) = (key_a, None).
Proof.
  split; [reflexivity|].
  destruct (p2p_public_key_roundtrip (list Byte.byte) (fun k => k) P2PKeys.bytes32_zero
              P2PKeys.bytes32_unmarshal (list Byte.byte) (fun k => k) key_a eq_refl)
    as [k [G [E [R _]]]].
  injection E as <-. exact R.
Defined.

(** ** Properties of the epoch time backend selection *)

Lemma Lookup_app_absent (fs l : EpochtimeInit.FlagSet) name :
  forallb (fun f => negb (String.eqb (EpochtimeInit.FlagName f) name)) fs = true ->
  EpochtimeInit.Lookup (fs ++ l) name = EpochtimeInit.Lookup l name.
Proof.
  induction fs as [|f fs IH]; simpl; [reflexivity|].
  intros H. apply andb_prop in H. destruct H as [H1 H2].
  destruct (String.eqb (EpochtimeInit.FlagName f) name); [discriminate H1|]. apply IH, H2.
Qed.

Lemma SetFlag_app_absent (fs l : EpochtimeInit.FlagSet) name v :
  forallb (fun f => negb (String.eqb (EpochtimeInit.FlagName f) name)) fs = true ->
  EpochtimeInit.SetFlag (fs ++ l) name v = fs ++ EpochtimeInit.SetFlag l name v.
Proof.
  induction fs as [|f fs IH]; simpl; [reflexivity|].
  intros H. apply andb_prop in H. destruct H as [H1 H2].
  destruct (String.eqb (EpochtimeInit.FlagName f) name); [discriminate H1|].
  rewrite IH by exact H2. reflexivity.
Qed.

Lemma RegisterFlags_absent sys ei fs fs' name :
  EpochtimeInit.RegisterFlags sys ei fs = Some fs' ->
  In name [EpochtimeInit.cfgBackend; EpochtimeInit.cfgSystemInterval;
           EpochtimeInit.cfgTendermintInterval] ->
  forallb (fun f => negb (String.eqb (EpochtimeInit.FlagName f) name)) fs = true.
Proof.
  unfold EpochtimeInit.RegisterFlags. intros H Hin.
  destruct (existsb _ fs) eqn:Hex; [discriminate H|].
  apply forallb_forall. intros f Hf.
  destruct (String.eqb_spec (EpochtimeInit.FlagName f) name) as [E|E]; [|reflexivity].
  exfalso. assert (X : existsb (fun f => existsb (String.eqb (EpochtimeInit.FlagName f))
                         [EpochtimeInit.cfgBackend; EpochtimeInit.cfgSystemInterval;
                          EpochtimeInit.cfgTendermintInterval]) fs = true).
  { apply existsb_exists. exists f. split; [exact Hf|].
    apply existsb_exists. exists name. split; [exact Hin|]. rewrite E. apply String.eqb_refl. }
  rewrite Hex in X. discriminate X.
Qed.

(** After [RegisterFlags], with nothing set on the command line, [New]
    constructs the system backend with the default interval
    [api.EpochInterval]; setting the system interval flag changes only the
    interval passed to it, and setting the tendermint interval does not
    affect it. *)
Theorem epochtime_New_defaults sys mock tm ei fs fs' :
  EpochtimeInit.RegisterFlags sys ei fs = Some fs' ->
  EpochtimeInit.ToLower sys = sys ->
  EpochtimeInit.New sys mock tm fs' = EpochtimeInit.SystemNew ei /\
  (forall v, EpochtimeInit.New sys mock tm
               (EpochtimeInit.SetFlag fs' EpochtimeInit.cfgSystemInterval (EpochtimeInit.FInt64 v))
             = EpochtimeInit.SystemNew v) /\
  (forall v, EpochtimeInit.New sys mock tm
               (EpochtimeInit.SetFlag fs' EpochtimeInit.cfgTendermintInterval (EpochtimeInit.FInt64 v))
             = EpochtimeInit.SystemNew ei).
Proof.
  intros H Hl.
  pose proof (RegisterFlags_absent sys ei fs fs' _ H (or_introl eq_refl)) as A1.
  pose proof (RegisterFlags_absent sys ei fs fs' _ H (or_intror (or_introl eq_refl))) as A2.
  pose proof (RegisterFlags_absent sys ei fs fs' _ H (or_intror (or_intror (or_introl eq_refl)))) as A3.
  unfold EpochtimeInit.RegisterFlags in H. destruct (existsb _ fs); [discriminate H|].
  injection H as <-.
  unfold EpochtimeInit.New, EpochtimeInit.GetString, EpochtimeInit.GetInt64.
  rewrite ?SetFlag_app_absent by assumption.
  repeat split; [|intros v|intros v]; rewrite ?SetFlag_app_absent by assumption;
    rewrite !Lookup_app_absent by assumption; simpl; rewrite Hl, String.eqb_refl; reflexivity.
Qed.

Lemma epochtime_New_defaults_witness :
  EpochtimeInit.RegisterFlags "system" 30%Z [] = Some
    [EpochtimeInit.mkFlag EpochtimeInit.cfgBackend (EpochtimeInit.FString "system") None;
     EpochtimeInit.mkFlag EpochtimeInit.cfgSystemInterval (EpochtimeInit.FInt64 30) None;
     EpochtimeInit.mkFlag EpochtimeInit.cfgTendermintInterval (EpochtimeInit.FInt64 30) None] /\
  EpochtimeInit.ToLower "system" = "system"%string /\
  EpochtimeInit.New "system" "mock" "tendermint"
    [EpochtimeInit.mkFlag EpochtimeInit.cfgBackend (EpochtimeInit.FString "system") None;
     EpochtimeInit.mkFlag EpochtimeInit.cfgSystemInterval (EpochtimeInit.FInt64 30) None;
     EpochtimeInit.mkFlag EpochtimeInit.cfgTendermintInterval (EpochtimeInit.FInt64 30) None]
  = EpochtimeInit.SystemNew 30.
Proof.
  split; [reflexivity|split; [reflexivity|]].
  destruct (epochtime_New_defaults "system" "mock" "tendermint" 30%Z [] _ eq_refl eq_refl)
    as [E _].
  exact E.
Defined.

Lemma GetString_SetFlag fs name b :
  EpochtimeInit.GetString (EpochtimeInit.SetFlag fs name (EpochtimeInit.FString b)) name
  = match EpochtimeInit.Lookup fs name with
    | None => (""%string, Some EpochtimeInit.ErrFlagNotDefined)
    | Some _ => (b, None)
    end.
Proof.
  unfold EpochtimeInit.GetString. induction fs as [|f fs IH]; [reflexivity|]. simpl.
  destruct (String.eqb (EpochtimeInit.FlagName f) name) eqn:E; simpl; rewrite ?E; [reflexivity|].
  exact IH.
Qed.

Lemma Lookup_SetFlag_other fs name name' v :
  String.eqb name name' = false ->
  EpochtimeInit.Lookup (EpochtimeInit.SetFlag fs name v) name' = EpochtimeInit.Lookup fs name'.
Proof.
  intros Hne. induction fs as [|f fs IH]; [reflexivity|]. simpl.
  destruct (String.eqb_spec (EpochtimeInit.FlagName f) name) as [E|E]; simpl.
  - destruct (String.eqb_spec (EpochtimeInit.FlagName f) name') as [E'|E'].
    + rewrite <- E, <- E', String.eqb_refl in Hne. discriminate Hne.
    + reflexivity.
  - rewrite IH. reflexivity.
Qed.

(** The backend name is matched after lower-casing: two spellings that
    lower-case alike select the same backend with the same interval, and
    when they select none the error quotes the name as it was given. *)
Theorem epochtime_New_case_insensitive sys mock tm fs b b' :
  EpochtimeInit.ToLower b = EpochtimeInit.ToLower b' ->
  EpochtimeInit.New sys mock tm
    (EpochtimeInit.SetFlag fs EpochtimeInit.cfgBackend (EpochtimeInit.FString b))
  = EpochtimeInit.New sys mock tm
      (EpochtimeInit.SetFlag fs EpochtimeInit.cfgBackend (EpochtimeInit.FString b')) \/
  (EpochtimeInit.New sys mock tm
     (EpochtimeInit.SetFlag fs EpochtimeInit.cfgBackend (EpochtimeInit.FString b))
   = EpochtimeInit.ErrUnsupportedBackend b /\
   EpochtimeInit.New sys mock tm
     (EpochtimeInit.SetFlag fs EpochtimeInit.cfgBackend (EpochtimeInit.FString b'))
   = EpochtimeInit.ErrUnsupportedBackend b').
Proof.
  intros Hl. unfold EpochtimeInit.New.
  rewrite !GetString_SetFlag.
  unfold EpochtimeInit.GetInt64.
  rewrite !Lookup_SetFlag_other by reflexivity.
  destruct (EpochtimeInit.Lookup fs EpochtimeInit.cfgBackend); [|left; reflexivity].
  rewrite Hl.
  destruct (String.eqb (EpochtimeInit.ToLower b') sys); [left; reflexivity|].
  destruct (String.eqb (EpochtimeInit.ToLower b') mock); [left; reflexivity|].
  destruct (String.eqb (EpochtimeInit.ToLower b') tm); [left; reflexivity|].
  right; split; reflexivity.
Qed.

Definition flags_default : EpochtimeInit.FlagSet :=
  [EpochtimeInit.mkFlag EpochtimeInit.cfgBackend (EpochtimeInit.FString "system") None;
   EpochtimeInit.mkFlag EpochtimeInit.cfgSystemInterval (EpochtimeInit.FInt64 30) None;
   EpochtimeInit.mkFlag EpochtimeInit.cfgTendermintInterval (EpochtimeInit.FInt64 30) None].

Lemma epochtime_New_case_insensitive_witness :
  EpochtimeInit.ToLower "TenderMint" = EpochtimeInit.ToLower "tendermint" /\
  EpochtimeInit.New "system" "mock" "tendermint"
    (EpochtimeInit.SetFlag flags_default EpochtimeInit.cfgBackend (EpochtimeInit.FString "TenderMint"))
  = EpochtimeInit.TendermintNew 30.
Proof.
  split; [reflexivity|].
  destruct (epochtime_New_case_insensitive "system" "mock" "tendermint" flags_default
              "TenderMint" "tendermint" eq_refl) as [E|[E _]];
    [rewrite E; reflexivity | vm_compute in E; discriminate E].
Defined.

(** A flag set without the backend flag (RegisterFlags not called) makes
    [New] fail with an unsupported-backend error for the empty name, as
    long as no backend is named by the empty string: the getter's own
    error is dropped. *)
Theorem epochtime_New_without_flags sys mock tm fs :
  EpochtimeInit.Lookup fs EpochtimeInit.cfgBackend = None ->
  sys <> ""%string -> mock <> ""%string -> tm <> ""%string ->
  EpochtimeInit.New sys mock tm fs = EpochtimeInit.ErrUnsupportedBackend "".
Proof.
  intros Hl Hs Hm Ht. unfold EpochtimeInit.New, EpochtimeInit.GetString. rewrite Hl. simpl.
  destruct sys; [contradiction|]. destruct mock; [contradiction|].
  destruct tm; [contradiction|]. reflexivity.
Qed.

Lemma epochtime_New_without_flags_witness :
  (EpochtimeInit.Lookup [] EpochtimeInit.cfgBackend = None /\
   "system"%string <> ""%string /\ "mock"%string <> ""%string /\ "tendermint"%string <> ""%string) /\
  EpochtimeInit.New "system" "mock" "tendermint" [] = EpochtimeInit.ErrUnsupportedBackend "".
Proof.
  split; [split; [reflexivity|split; [discriminate|split; discriminate]]|].
  apply epochtime_New_without_flags; [reflexivity|discriminate|discriminate|discriminate].
Defined.
